(** * migration_AI: the mapping-DSL parsers and the fallback PL/SQL generator

    A shallow embedding of [src/app.py]: the two directive parsers
    ([process_transformations], [process_related_inserts]) and the
    deterministic generator [generate_fallback_code], followed by the
    properties of the specification checked against them.

    Conventions of the embedding.
    - A Python [str] is a [string]; a character is an [ascii].  The string
      primitives ([strip], [upper], [lower], the class [\w]) are exact on
      ASCII text; a character above 127 is treated as neither whitespace,
      nor a letter, nor a word character.
    - A Python value read out of a mapping row is a [PyVal]: either a [str]
      or something else (a float NaN from an empty spreadsheet cell, a JSON
      number, [None]), of which only the truth value and the text that an
      f-string prints are kept.
    - A [dict] that is only looked up is a [gmap]; a [dict] that is iterated
      ([value_maps]) is an association list in insertion order.
    - An exception is a value of [PyExn] in the error monad [result].
    - [datetime.now()] is the parameter [timestamp]; logging is left out. *)

From Stdlib Require Import String Ascii List Bool Arith Lia.
From stdpp Require Import gmap strings pretty.

(** ** Python string primitives *)

Module Py.

Definition nl : string := String (ascii_of_nat 10) "".
Definition dquote : ascii := ascii_of_nat 34.
Definition squote : ascii := ascii_of_nat 39.

(** [''.join(l)] *)
Definition cat (l : list string) : string := fold_right String.append "" l.

Definition in_range (lo hi : nat) (c : ascii) : bool :=
  (lo <=? nat_of_ascii c) && (nat_of_ascii c <=? hi).

(** The characters [str.strip()] removes: TAB, LF, VT, FF, CR, the four
    separators 0x1c-0x1f and the space. *)
Definition is_space (c : ascii) : bool :=
  in_range 9 13 c || in_range 28 32 c.

(** The character set of the quote-stripping call: the single and the
    double quote. *)
Definition is_quote (c : ascii) : bool :=
  Ascii.eqb c squote || Ascii.eqb c dquote.

(** The class [\w] of [re]. *)
Definition is_word (c : ascii) : bool :=
  in_range 48 57 c || in_range 65 90 c || in_range 97 122 c || Ascii.eqb c "_".

Definition upper_char (c : ascii) : ascii :=
  if in_range 97 122 c then ascii_of_nat (nat_of_ascii c - 32) else c.

Definition lower_char (c : ascii) : ascii :=
  if in_range 65 90 c then ascii_of_nat (nat_of_ascii c + 32) else c.

Fixpoint map_chars (f : ascii -> ascii) (s : string) : string :=
  match s with
  | EmptyString => EmptyString
  | String c s' => String (f c) (map_chars f s')
  end.

Definition upper : string -> string := map_chars upper_char.
Definition lower : string -> string := map_chars lower_char.

Fixpoint all_chars (p : ascii -> bool) (s : string) : bool :=
  match s with
  | EmptyString => true
  | String c s' => p c && all_chars p s'
  end.

Fixpoint lstrip_by (p : ascii -> bool) (s : string) : string :=
  match s with
  | EmptyString => EmptyString
  | String c s' => if p c then lstrip_by p s' else s
  end.

Fixpoint rstrip_by (p : ascii -> bool) (s : string) : string :=
  match s with
  | EmptyString => EmptyString
  | String c s' =>
      match rstrip_by p s' with
      | EmptyString => if p c then EmptyString else String c EmptyString
      | r => String c r
      end
  end.

(** [s.strip(chars)]: every leading and every trailing character of the
    set goes. *)
Definition strip_by (p : ascii -> bool) (s : string) : string :=
  rstrip_by p (lstrip_by p s).

(** [s.strip()] *)
Definition strip : string -> string := strip_by is_space.

(** [s.startswith(p)] *)
Fixpoint startswith (s p : string) {struct p} : bool :=
  match p, s with
  | EmptyString, _ => true
  | String _ _, EmptyString => false
  | String a p', String b s' => Ascii.eqb a b && startswith s' p'
  end.

(** [s.endswith(p)]: some suffix of [s] is [p]. *)
Fixpoint endswith (s p : string) : bool :=
  String.eqb s p ||
  match s with
  | EmptyString => false
  | String _ s' => endswith s' p
  end.

(** [p in s] *)
Fixpoint contains (p s : string) : bool :=
  startswith s p ||
  match s with
  | EmptyString => false
  | String _ s' => contains p s'
  end.

(** [s[n:]] *)
Fixpoint drop (n : nat) (s : string) : string :=
  match n, s with
  | O, _ => s
  | S _, EmptyString => EmptyString
  | S n', String _ s' => drop n' s'
  end.

(** [s[:-1]] *)
Fixpoint drop_last (s : string) : string :=
  match s with
  | EmptyString => EmptyString
  | String _ EmptyString => EmptyString
  | String c s' => String c (drop_last s')
  end.

(** [s.partition(sep)] when [sep] occurs: the text before and after the
    first occurrence. *)
Fixpoint cut (sep s : string) : option (string * string) :=
  if startswith s sep then Some (EmptyString, drop (String.length sep) s)
  else
    match s with
    | EmptyString => None
    | String c s' =>
        match cut sep s' with
        | Some (l, r) => Some (String c l, r)
        | None => None
        end
    end.

(** [s.split(sep, 1)]: one or two pieces. *)
Definition split1 (sep s : string) : list string :=
  match cut sep s with
  | Some (l, r) => [l; r]
  | None => [s]
  end.

(** [s.split(c)] for a one-character separator: never the empty list. *)
Fixpoint split (c : ascii) (s : string) : list string :=
  match s with
  | EmptyString => [EmptyString]
  | String a s' =>
      if Ascii.eqb a c then EmptyString :: split c s'
      else
        match split c s' with
        | h :: t => String a h :: t
        | [] => [String a EmptyString]
        end
  end.

(** [sep.join(l)] *)
Fixpoint join (sep : string) (l : list string) : string :=
  match l with
  | [] => EmptyString
  | [x] => x
  | x :: l' => x +:+ sep +:+ join sep l'
  end.

(** The longest run of characters other than [c] at the head of [s], and
    whether a [c] follows it. *)
Fixpoint span_until (c : ascii) (s : string) : string * bool :=
  match s with
  | EmptyString => (EmptyString, false)
  | String a s' =>
      if Ascii.eqb a c then (EmptyString, true)
      else let '(g, closed) := span_until c s' in (String a g, closed)
  end.

(** [re.search(r'\(([^)]+)\)', s)], returning group 1 of the leftmost
    match: at each ['('] the class [[^)]+] runs up to the next [')']; the
    match fails there when the run is empty or the string ends first, and
    the search moves on to the next position. *)
Fixpoint search_paren_group (s : string) : option string :=
  match s with
  | EmptyString => None
  | String a s' =>
      if Ascii.eqb a "(" then
        match span_until ")" s' with
        | (String g0 g, true) => Some (String g0 g)
        | _ => search_paren_group s'
        end
      else search_paren_group s'
  end.

(** [re.sub(r'[^\w]', '_', s)] *)
Definition sub_nonword : string -> string :=
  map_chars (fun c => if is_word c then c else "_"%char).

End Py.

Import Py.

(** ** Values, exceptions, dictionaries *)

(** A value of a mapping row as the generator sees it. *)
Inductive PyVal : Type :=
  | VStr (s : string)
  | VOther (truthy : bool) (text : string).

Inductive PyExn : Type :=
  | AttributeError
  | TypeError
  | ValueError.

Inductive result (A : Type) : Type :=
  | Ok (a : A)
  | Raise (e : PyExn).
Arguments Ok {A} a.
Arguments Raise {A} e.

#[global] Instance result_ret : MRet result := fun A a => Ok a.
#[global] Instance result_bind : MBind result := fun A B f m =>
  match m with
  | Ok a => f a
  | Raise e => Raise e
  end.
#[global] Instance result_fmap : FMap result := fun A B f m =>
  match m with
  | Ok a => Ok (f a)
  | Raise e => Raise e
  end.

(** [isinstance(v, str)] *)
Definition is_str (v : PyVal) : bool :=
  match v with
  | VStr _ => true
  | VOther _ _ => false
  end.

(** The truth value of [v] in [if v:] *)
Definition truthy_val (v : PyVal) : bool :=
  match v with
  | VStr s => negb (String.eqb s "")
  | VOther b _ => b
  end.

(** What [f"{v}"] prints. *)
Definition py_str (v : PyVal) : string :=
  match v with
  | VStr s => s
  | VOther _ t => t
  end.

(** [v.lower()]: only a [str] has the method. *)
Definition py_lower (v : PyVal) : result string :=
  match v with
  | VStr s => Ok (lower s)
  | VOther _ _ => Raise AttributeError
  end.

(** [re.sub(r'[^\w]', '_', v)]: only a [str] is accepted. *)
Definition py_sub_nonword (v : PyVal) : result string :=
  match v with
  | VStr s => Ok (sub_nonword s)
  | VOther _ _ => Raise TypeError
  end.

(** [v == s] for a string literal [s] *)
Definition val_eqb (v : PyVal) (s : string) : bool :=
  match v with
  | VStr t => String.eqb t s
  | VOther _ _ => false
  end.

(** [item.get(key, default)] *)
Definition get (item : gmap string PyVal) (key dflt : string) : PyVal :=
  default (VStr dflt) (item !! key).

(** [d[k] = v] on a dictionary that is iterated later: an existing key
    keeps its place, a new key goes last. *)
Fixpoint dict_set (k v : string) (d : list (string * string)) : list (string * string) :=
  match d with
  | [] => [(k, v)]
  | (k', v') :: d' =>
      if String.eqb k' k then (k, v) :: d' else (k', v') :: dict_set k v d'
  end.

Fixpoint dict_get (k : string) (d : list (string * string)) : option string :=
  match d with
  | [] => None
  | (k', v') :: d' => if String.eqb k' k then Some v' else dict_get k d'
  end.

Fixpoint fold_chars {S : Type} (f : S -> ascii -> S) (st : S) (s : string) : S :=
  match s with
  | EmptyString => st
  | String c s' => fold_chars f (f st c) s'
  end.

(** ** [process_transformations] *)

(** The entry of [mappings] for one source field; [value_maps] is [None]
    when the dictionary has no ['value_maps'] key. *)
Record ColumnTransform : Type := {
  dest_field : string;
  value_maps : option (list (string * string))
}.

(** State of the clause splitter: the clauses so far, [temp], [map_depth]. *)
Definition split_state : Type := (list string * string * nat)%type.

Definition split_step (st : split_state) (char : ascii) : split_state :=
  let '(transformations, temp, map_depth) := st in
  let map_depth :=
    if Ascii.eqb char "(" && contains "MAP:" temp then S map_depth
    else if Ascii.eqb char ")" && (0 <? map_depth) then pred map_depth
    else map_depth in
  if Ascii.eqb char "," && (map_depth =? 0)
  then (transformations ++ [strip temp], EmptyString, map_depth)
  else (transformations, temp +:+ String char EmptyString, map_depth).

Definition split_transformations (transformations_str : string) : list string :=
  let '(transformations, temp, _) :=
    fold_chars split_step ([], EmptyString, 0) transformations_str in
  if String.eqb temp "" then transformations else transformations ++ [strip temp].

(** One [item] of [map_items]. *)
Definition add_value_map (value_maps : list (string * string)) (item : string)
  : list (string * string) :=
  if contains "->" item then
    match split1 "->" item with
    | [l; r] =>
        let src_val := strip_by is_quote (strip l) in
        let dest_val := strip_by is_quote (strip r) in
        dict_set src_val dest_val value_maps
    | _ => value_maps
    end
  else value_maps.

Definition parse_value_maps (map_part : string) : list (string * string) :=
  fold_left add_value_map (split "," map_part) [].

(** [if map_part.endswith(')'): map_part = map_part[:-1].strip()] *)
Definition strip_closing_paren (map_part : string) : string :=
  if endswith map_part ")" then strip (drop_last map_part) else map_part.

(** The body of [for transform in transformations].  Unpacking the result
    of [split('(MAP:', 1)] into two names raises [ValueError] unless there
    are two pieces. *)
Definition add_transform (mappings : gmap string ColumnTransform) (transform : string)
  : result (gmap string ColumnTransform) :=
  if contains "->" transform then
    match split1 "->" transform with
    | [l; r] =>
        let src_field := strip l in
        let dest_part := strip r in
        if contains "(MAP:" dest_part then
          match split1 "(MAP:" dest_part with
          | [dest_field; map_part] =>
              let dest_field := strip dest_field in
              let map_part := strip_closing_paren map_part in
              Ok (<[src_field := {| dest_field := dest_field;
                                    value_maps := Some (parse_value_maps map_part) |}]>
                    mappings)
          | _ => Raise ValueError
          end
        else
          Ok (<[src_field := {| dest_field := dest_part; value_maps := None |}]>
                mappings)
    | _ => Ok mappings
    end
  else Ok mappings.

Fixpoint add_transforms (mappings : gmap string ColumnTransform) (l : list string)
  : result (gmap string ColumnTransform) :=
  match l with
  | [] => Ok mappings
  | transform :: l' =>
      match add_transform mappings transform with
      | Ok mappings' => add_transforms mappings' l'
      | Raise e => Raise e
      end
  end.

Definition process_transformations (transformations_str : PyVal)
  : result (gmap string ColumnTransform) :=
  match transformations_str with
  | VStr s =>
      if String.eqb s "" then Ok ∅
      else add_transforms ∅ (split_transformations s)
  | VOther _ _ => Ok ∅
  end.

(** ** [process_related_inserts] *)

(** The dictionary with ['type': 'KEY']. *)
Inductive RelatedInsert : Type :=
  | Key (target_table key_column value_column : string).

(** [value_column]: the text after the first [')'], trimmed, without one
    leading colon. *)
Definition value_column_of (rest : string) : string :=
  let value_column := strip rest in
  if startswith value_column ":" then strip (drop 1 value_column)
  else value_column.

(** The part of the [try] block that follows the assignment of
    [target_table]: the key column comes from the regular expression, the
    value column from a split at the first [')']. *)
Definition parse_key_value (target_table key_value_part : string) : option RelatedInsert :=
  match search_paren_group key_value_part with
  | None => None
  | Some g =>
      let key_column := strip g in
      match split1 ")" key_value_part with
      | [_; rest] =>
          let value_column := value_column_of rest in
          if negb (String.eqb key_column "") && negb (String.eqb value_column "")
          then Some (Key target_table key_column value_column)
          else None
      | _ => None
      end
  end.

(** The body of [for instruction in instructions]: [None] on every
    [continue] and when the final test fails.  Nothing inside the [try]
    raises; the [except] clause would swallow it anyway. *)
Definition parse_instruction (instruction : string) : option RelatedInsert :=
  let instruction := strip instruction in
  if String.eqb instruction "" then None
  else if startswith instruction "KEY:" then
    let after_key := drop 4 instruction in
    match split1 "(" after_key with
    | [p0; p1] => parse_key_value (strip p0) ("(" +:+ p1)
    | _ => None
    end
  else None.

Definition process_related_inserts (related_inserts_str : PyVal) : list RelatedInsert :=
  match related_inserts_str with
  | VStr s =>
      if String.eqb s "" then []
      else omap parse_instruction (split "," s)
  | VOther _ _ => []
  end.

(** ** [generate_fallback_code]: one script per mapping row *)

(** The [if]/[elif] chain that picks the PL/SQL type of a record field. *)
Definition infer_type (col : string) : string :=
  if contains "ID" (upper col) || endswith (upper col) "_ID" then "NUMBER"
  else if contains "DATE" (upper col) || contains "TIME" (upper col) then "DATE"
  else if contains "AMOUNT" (upper col) || contains "PRICE" (upper col)
          || contains "COST" (upper col) then "NUMBER"
  else "VARCHAR2(4000)".

(** [","] while [i < len(l) - 1] *)
Definition comma_unless_last {A : Type} (i : nat) (l : list A) : string :=
  if i <? length l - 1 then "," else "".

(** [item.get(key, '').split(',') if isinstance(item.get(key, ''), str) else []] *)
Definition raw_columns (item : gmap string PyVal) (key : string) : list string :=
  match get item key "" with
  | VStr s => split "," s
  | VOther _ _ => []
  end.

(** [[col.strip() for col in columns if col.strip()]] *)
Definition clean_columns (columns : list string) : list string :=
  filter (fun col => col ≠ "") (map strip columns).

Definition default_source_columns : list string :=
  ["ID"; "COLUMN1"; "COLUMN2"; "CREATED_DATE"].

(** The target columns derived from the transformations when the row
    names none. *)
Definition derived_target_columns (transformations : gmap string ColumnTransform)
    (source_columns : list string) : list string :=
  map (fun src_col =>
         match transformations !! src_col with
         | Some t => dest_field t
         | None => src_col
         end) source_columns.

Definition record_lines (source_columns : list string) : list string :=
  imap (fun i col =>
          cat ["      "; strip col; " "; infer_type col;
               comma_unless_last i source_columns; nl]) source_columns.

Definition select_lines (source_columns : list string) : list string :=
  imap (fun i col =>
          cat ["      "; strip col; comma_unless_last i source_columns; nl])
       source_columns.

Definition related_insert_block (related_insert : RelatedInsert) : string :=
  match related_insert with
  | Key target_table_rel key_column value_column =>
  cat ["        -- Insert/update record in "; target_table_rel; " lookup table"; nl;
       "        BEGIN"; nl;
       "          MERGE INTO "; target_table_rel; " t"; nl;
       "          USING (SELECT v_source_data(i)."; key_column; " as key_val, "; nl;
       "                       v_source_data(i)."; value_column; " as value_val "; nl;
       "                 FROM dual) s"; nl;
       "          ON (t.migrt_key = s.key_val)"; nl;
       "          WHEN MATCHED THEN"; nl;
       "            UPDATE SET t.migrt_value = s.value_val"; nl;
       "          WHEN NOT MATCHED THEN"; nl;
       "            INSERT (migrt_key, migrt_value)"; nl;
       "            VALUES (s.key_val, s.value_val);"; nl;
       "          "; nl;
       "          DBMS_OUTPUT.PUT_LINE('Processed lookup record for key: ' || v_source_data(i)."; key_column; ");"; nl;
       "        EXCEPTION"; nl;
       "          WHEN OTHERS THEN"; nl;
       "            v_error_message := SQLERRM;"; nl;
       "            DBMS_OUTPUT.PUT_LINE('Error during related insert to "; target_table_rel; ": ' || v_error_message);"; nl;
       "            -- Continue with the migration process"; nl;
       "        END;"; nl]
  end.

(** The text added when [related_inserts] is not empty. *)
Definition related_inserts_code (related_inserts : list RelatedInsert) : string :=
  match related_inserts with
  | [] => ""
  | _ =>
  cat ["      -- First, process related inserts for each record"; nl;
       "      FOR i IN 1..v_source_data.COUNT LOOP"; nl;
       cat (map related_insert_block related_inserts);
       "      END LOOP;"; nl;
       "      "; nl;
       "      -- Commit the related inserts"; nl;
       "      COMMIT;"; nl;
       "      DBMS_OUTPUT.PUT_LINE('Related records committed successfully.');"; nl;
       "      "; nl]
  end.

(** The entries of the column list of [INSERT INTO]: one per target
    column. *)
Definition insert_column_lines (target_columns : list string) : list string :=
  imap (fun i col =>
          cat ["          "; strip col; comma_unless_last i target_columns; nl])
       target_columns.

Definition when_line (branch : string * string) : string :=
  let '(src_val, dest_val) := branch in
  cat ["            WHEN '"; src_val; "' THEN "; dest_val; nl].

(** The expression written for one source column of the [VALUES] list. *)
Definition value_text (transformations : gmap string ColumnTransform)
    (src_col : string) : string :=
  match transformations !! src_col with
  | Some {| value_maps := Some vm |} =>
      cat ["CASE v_source_data(i)."; src_col; nl;
           cat (map when_line vm);
           "            ELSE v_source_data(i)."; src_col; nl;
           "          END"]
  | _ => cat ["v_source_data(i)."; src_col]
  end.

(** The entries of the [VALUES] list: the loop runs over the source
    columns and writes nothing once [i] has reached [len(target_columns)]. *)
Definition insert_value_lines (transformations : gmap string ColumnTransform)
    (source_columns target_columns : list string) : list string :=
  concat
    (imap (fun i src_col =>
             let src_col := strip src_col in
             if i <? length target_columns then
               [cat ["          "; value_text transformations src_col;
                     comma_unless_last i target_columns; nl]]
             else [])
          source_columns).

(** What the loop writes for source column [i] when it writes at all. *)
Definition value_entry (tr : gmap string ColumnTransform) (tc : list string)
    (i : nat) (src_col : string) : string :=
  cat ["          "; value_text tr (strip src_col); comma_unless_last i tc; nl].

(** A normalized mapping: what the generator has in hand for one row once
    the columns are cleaned and defaulted. *)
Record NormalizedMapping : Type := {
  nm_source_table : PyVal;
  nm_target_table : PyVal;
  nm_source_columns : list string;
  nm_target_columns : list string;
  nm_where_condition : PyVal;
  nm_transformations : gmap string ColumnTransform;
  nm_related_inserts : list RelatedInsert
}.

Definition normalize (item : gmap string PyVal) : result NormalizedMapping :=
  let source_table := get item "source_table" "unknown_source" in
  let target_table := get item "target_table" "unknown_target" in
  let source_columns := raw_columns item "source_columns" in
  let target_columns := raw_columns item "target_columns" in
  let where_condition := get item "where_condition" "" in
  let transformations_str := get item "transformations" "" in
  let related_inserts_str := get item "related_inserts" "" in
  transformations ← process_transformations transformations_str;
  let related_inserts := process_related_inserts related_inserts_str in
  let source_columns := clean_columns source_columns in
  let target_columns := clean_columns target_columns in
  let source_columns :=
    match source_columns with
    | [] => default_source_columns
    | _ => source_columns
    end in
  let target_columns :=
    match target_columns with
    | [] => derived_target_columns transformations source_columns
    | _ => target_columns
    end in
  mret {| nm_source_table := source_table;
          nm_target_table := target_table;
          nm_source_columns := source_columns;
          nm_target_columns := target_columns;
          nm_where_condition := where_condition;
          nm_transformations := transformations;
          nm_related_inserts := related_inserts |}.

(** The entry appended to [scripts]. *)
Record Script : Type := {
  filename : string;
  code : string;
  source_table : PyVal;
  target_table : PyVal
}.

(** The pieces appended to [code], in order. *)
Definition script_parts (m : NormalizedMapping) (package_name : string) : list string :=
  let source_table := py_str (nm_source_table m) in
  let target_table := py_str (nm_target_table m) in
  [nl;
   "SET SERVEROUTPUT ON;"; nl;
   nl;
   "-- Data migration package for "; source_table; " to "; target_table; nl;
   "CREATE OR REPLACE PACKAGE "; package_name; " AS"; nl;
   "  -- Main migration procedure"; nl;
   "  PROCEDURE migrate_data;"; nl;
   "END "; package_name; ";"; nl;
   "/"; nl;
   nl;
   "CREATE OR REPLACE PACKAGE BODY "; package_name; " AS"; nl;
   "  -- Variables declaration"; nl;
   "  v_error_message VARCHAR2(4000);"; nl;
   "  v_count NUMBER;"; nl;
   "  "; nl;
   "  -- Migration procedure"; nl;
   "  PROCEDURE migrate_data IS"; nl;
   "    -- Type definitions for bulk collect"; nl;
   "    TYPE t_source_rec IS RECORD ("; nl;
   cat (record_lines (nm_source_columns m));
   "    );"; nl;
   "    TYPE t_source_tab IS TABLE OF t_source_rec;"; nl;
   "    v_source_data t_source_tab;"; nl;
   "  BEGIN"; nl;
   "    -- Display start message"; nl;
   "    DBMS_OUTPUT.PUT_LINE('Starting migration from ";
   source_table; " to "; target_table; ": ' || TO_CHAR(SYSDATE, 'DD-MON-YYYY HH24:MI:SS'));"; nl;
   nl;
   "    -- Retrieve data from source table"; nl;
   "    SELECT "; nl;
   cat (select_lines (nm_source_columns m));
   "    BULK COLLECT INTO v_source_data"; nl;
   "    FROM "; source_table;
   (if truthy_val (nm_where_condition m)
    then cat [nl; "    WHERE "; py_str (nm_where_condition m)] else "");
   "    ;"; nl;
   "    "; nl;
   "    -- Number of records found"; nl;
   "    v_count := v_source_data.COUNT;"; nl;
   "    DBMS_OUTPUT.PUT_LINE('Found ' || v_count || ' records to migrate.');"; nl;
   "    "; nl;
   "    -- If records found, process them"; nl;
   "    IF v_count > 0 THEN"; nl;
   related_inserts_code (nm_related_inserts m);
   "      -- Now, insert into the main target table"; nl;
   "      FORALL i IN 1..v_source_data.COUNT"; nl;
   "        INSERT INTO "; target_table; " ("; nl;
   cat (insert_column_lines (nm_target_columns m));
   "        ) VALUES ("; nl;
   cat (insert_value_lines (nm_transformations m)
          (nm_source_columns m) (nm_target_columns m));
   "        );"; nl;
   "        "; nl;
   "      DBMS_OUTPUT.PUT_LINE('Inserted ' || SQL%ROWCOUNT || ' records into main table.');"; nl;
   "      COMMIT;"; nl;
   "      DBMS_OUTPUT.PUT_LINE('Main table data committed successfully.');"; nl;
   "    ELSE"; nl;
   "      DBMS_OUTPUT.PUT_LINE('No records to migrate.');"; nl;
   "    END IF;"; nl;
   "    "; nl;
   "    DBMS_OUTPUT.PUT_LINE('Migration completed: ' || TO_CHAR(SYSDATE, 'DD-MON-YYYY HH24:MI:SS'));"; nl;
   "  EXCEPTION"; nl;
   "    WHEN OTHERS THEN"; nl;
   "      v_error_message := SQLERRM;"; nl;
   "      DBMS_OUTPUT.PUT_LINE('Error during migration: ' || v_error_message);"; nl;
   "      ROLLBACK;"; nl;
   "      RAISE;"; nl;
   "  END migrate_data;"; nl;
   "END ";
   package_name; ";"; nl;
   "/"; nl;
   nl;
   "-- Execute migration"; nl;
   "BEGIN"; nl;
   "  "; package_name; ".migrate_data;"; nl;
   "END;"; nl;
   "/"; nl].

Definition script_code (m : NormalizedMapping) (package_name : string) : string :=
  cat (script_parts m package_name).

(** The insert statement, as it stands in [script_parts]. *)
Definition insert_statement (m : NormalizedMapping) : string :=
  cat ["      -- Now, insert into the main target table"; nl;
       "      FORALL i IN 1..v_source_data.COUNT"; nl;
       "        INSERT INTO "; py_str (nm_target_table m); " ("; nl;
       cat (insert_column_lines (nm_target_columns m));
       "        ) VALUES ("; nl;
       cat (insert_value_lines (nm_transformations m)
              (nm_source_columns m) (nm_target_columns m));
       "        );"; nl].

(** The body of [for item in mapping_data]. *)
Definition build_script (item : gmap string PyVal) : result Script :=
  m ← normalize item;
  lowered ← py_lower (nm_target_table m);
  let package_name := "migrt_" +:+ lowered in
  mret {| filename := package_name +:+ ".sql";
          code := script_code m package_name;
          source_table := nm_source_table m;
          target_table := nm_target_table m |}.

Fixpoint build_scripts (mapping_data : list (gmap string PyVal)) : result (list Script) :=
  match mapping_data with
  | [] => Ok []
  | item :: rest =>
      script ← build_script item;
      scripts ← build_scripts rest;
      mret (script :: scripts)
  end.

(** ** The controller script and the files *)

(** The text of block [i] of [n] in the controller: the call of one
    package inside a block of its own, whose handler for [OTHERS] prints the
    error and ends without raising it again. *)
Definition call_text (i n : nat) (source target package_name : string) : string :=
  cat ["  -- Migration "; pretty (i + 1); ": "; source; " to "; target; nl;
       "  BEGIN"; nl;
       "    "; package_name; ".migrate_data;"; nl;
       "    DBMS_OUTPUT.PUT_LINE('');"; nl;
       "  EXCEPTION"; nl;
       "    WHEN OTHERS THEN"; nl;
       "      DBMS_OUTPUT.PUT_LINE('Error in "; package_name; ": ' || SQLERRM);"; nl;
       "      DBMS_OUTPUT.PUT_LINE('');"; nl;
       "  END;"; nl;
       if i <? n - 1 then nl else ""].

(** The body of [for i, script in enumerate(scripts)]. *)
Definition call_block (i : nat) (script : Script) (scripts : list Script) : result string :=
  lowered ← py_lower (target_table script);
  let package_name := "migrt_" +:+ lowered in
  mret (call_text i (length scripts) (py_str (source_table script))
          (py_str (target_table script)) package_name).

(** [for i, script in enumerate(scripts)], from index [i] on. *)
Fixpoint call_blocks (i : nat) (todo scripts : list Script) : result (list string) :=
  match todo with
  | [] => Ok []
  | script :: rest =>
      block ← call_block i script scripts;
      blocks ← call_blocks (S i) rest scripts;
      mret (block :: blocks)
  end.

Definition main_script_code (blocks : list string) : string :=
  cat [nl;
       "SET SERVEROUTPUT ON;"; nl;
       nl;
       "-- Main migration controller"; nl;
       "BEGIN"; nl;
       "  DBMS_OUTPUT.PUT_LINE('=== DATA MIGRATION START: ' || TO_CHAR(SYSDATE, 'DD-MON-YYYY HH24:MI:SS') || ' ===');"; nl;
       "  DBMS_OUTPUT.PUT_LINE('');"; nl;
       nl;
       cat blocks;
       nl;
       "  DBMS_OUTPUT.PUT_LINE('=== DATA MIGRATION END: ' || TO_CHAR(SYSDATE, 'DD-MON-YYYY HH24:MI:SS') || ' ===');"; nl;
       "END;"; nl;
       "/"; nl].

Definition main_script (scripts : list Script) : result Script :=
  blocks ← call_blocks 0 scripts scripts;
  mret {| filename := "migrate_all.sql";
          code := main_script_code blocks;
          source_table := VStr "ALL";
          target_table := VStr "ALL" |}.

(** [scripts] as it stands when the files are written. *)
Definition all_scripts (mapping_data : list (gmap string PyVal)) : result (list Script) :=
  scripts ← build_scripts mapping_data;
  main ← main_script scripts;
  mret (scripts ++ [main]).

(** An entry of [saved_files] and of the index file. *)
Record FileInfo : Type := {
  fi_filename : string;
  fi_source_table : PyVal;
  fi_target_table : PyVal;
  fi_timestamp : string
}.

(** The name under [generated_code/] a script is written to. *)
Definition saved_filename (timestamp : string) (script : Script) : result string :=
  if val_eqb (source_table script) "ALL" && val_eqb (target_table script) "ALL"
  then Ok (cat [timestamp; "_migrate_all.sql"])
  else
    source_name ← py_sub_nonword (source_table script);
    target_name ← py_sub_nonword (target_table script);
    mret (cat [timestamp; "_"; source_name; "_to_"; target_name; ".sql"]).

(** The directory [generated_code/]: the files by name, and the entries
    read from [file_index.json] (none when the file is missing or
    unreadable). *)
Record Store : Type := {
  files : gmap string string;
  index : list FileInfo
}.

(** [for script in scripts]: each file is opened for writing, so a name
    used twice keeps the later text.  An exception leaves the files written
    so far. *)
Fixpoint save_scripts (timestamp : string) (scripts : list Script)
    (fs : gmap string string) : gmap string string * result (list FileInfo) :=
  match scripts with
  | [] => (fs, Ok [])
  | script :: rest =>
      match saved_filename timestamp script with
      | Raise e => (fs, Raise e)
      | Ok name =>
          let file_info := {| fi_filename := name;
                              fi_source_table := source_table script;
                              fi_target_table := target_table script;
                              fi_timestamp := timestamp |} in
          let '(fs', saved) := save_scripts timestamp rest (<[name := code script]> fs) in
          (fs', (fun l => file_info :: l) <$> saved)
      end
  end.

Definition generate_fallback_code (timestamp : string)
    (mapping_data : list (gmap string PyVal)) (st : Store)
  : Store * result (list FileInfo) :=
  match all_scripts mapping_data with
  | Raise e => (st, Raise e)
  | Ok scripts =>
      match save_scripts timestamp scripts (files st) with
      | (fs, Raise e) => ({| files := fs; index := index st |}, Raise e)
      | (fs, Ok saved_files) =>
          ({| files := fs; index := index st ++ saved_files |}, Ok saved_files)
      end
  end.

(** ** Reading the emitted text

    The two shapes of a [VALUES] entry as a small expression type, what it
    prints as, and what a simple [CASE] of PL/SQL evaluates to on a source
    value: the branches are tried from the top and the first equal key
    decides. *)
Inductive ValueExpr : Type :=
  | Direct (src_col : string)
  | CaseMap (src_col : string) (branches : list (string * string)).

Definition render (e : ValueExpr) : string :=
  match e with
  | Direct src_col => cat ["v_source_data(i)."; src_col]
  | CaseMap src_col branches =>
      cat ["CASE v_source_data(i)."; src_col; nl;
           cat (map when_line branches);
           "            ELSE v_source_data(i)."; src_col; nl;
           "          END"]
  end.

Fixpoint first_match (v : string) (branches : list (string * string)) : option string :=
  match branches with
  | [] => None
  | (k, d) :: rest => if String.eqb v k then Some d else first_match v rest
  end.

Definition eval (e : ValueExpr) (v : string) : string :=
  match e with
  | Direct _ => v
  | CaseMap _ branches => default v (first_match v branches)
  end.

Definition value_expr (transformations : gmap string ColumnTransform)
    (src_col : string) : ValueExpr :=
  match transformations !! src_col with
  | Some {| value_maps := Some vm |} => CaseMap src_col vm
  | _ => Direct src_col
  end.

(** The controller read as a program.  Its text is a block of statements:
    calls of procedures, [DBMS_OUTPUT.PUT_LINE], comment lines, blank lines,
    and inner blocks with a handler for [OTHERS]. *)
Inductive Stmt : Type :=
  | PutLine (expr : string)
  | CallProc (proc : string).

Inductive Item : Type :=
  | Plain (s : Stmt)
  | CommentLine (text : string)
  | BlankLine
  | Handled (body handler : list Stmt).

(** The text of a program, as PL/SQL writes it. *)
Definition print_stmt (indent : string) (s : Stmt) : string :=
  match s with
  | PutLine expr => cat [indent; "DBMS_OUTPUT.PUT_LINE("; expr; ");"; nl]
  | CallProc proc => cat [indent; proc; ";"; nl]
  end.

Definition print_item (it : Item) : string :=
  match it with
  | Plain s => print_stmt "  " s
  | CommentLine text => cat ["  -- "; text; nl]
  | BlankLine => nl
  | Handled body handler =>
      cat ["  BEGIN"; nl;
           cat (map (print_stmt "    ") body);
           "  EXCEPTION"; nl;
           "    WHEN OTHERS THEN"; nl;
           cat (map (print_stmt "      ") handler);
           "  END;"; nl]
  end.

Definition print_controller (items : list Item) : string :=
  cat [nl;
       "SET SERVEROUTPUT ON;"; nl;
       nl;
       "-- Main migration controller"; nl;
       "BEGIN"; nl;
       cat (map print_item items);
       "END;"; nl;
       "/"; nl].

(** What a run of the program does: the procedures it calls and the lines
    it prints, in order. *)
Inductive Output : Type :=
  | Called (proc : string)
  | Printed (expr : string).

(** Running a program.  [fails n] tells whether the call number [n] of the
    run (counted from 0) raises; printing does not raise.  The result is the
    output, the number of calls made so far, and whether an exception is
    propagating.  A statement list stops at the first statement that raises;
    a block with a handler runs the handler when its body raises and then
    ends normally, unless the handler raises itself. *)
Definition exec_stmt (fails : nat -> bool) (n : nat) (s : Stmt) : list Output * nat * bool :=
  match s with
  | PutLine expr => ([Printed expr], n, false)
  | CallProc proc => ([Called proc], S n, fails n)
  end.

Fixpoint exec_stmts (fails : nat -> bool) (n : nat) (l : list Stmt)
  : list Output * nat * bool :=
  match l with
  | [] => ([], n, false)
  | s :: rest =>
      let '(out, n1, raised) := exec_stmt fails n s in
      if raised then (out, n1, true)
      else
        let '(out', n2, raised') := exec_stmts fails n1 rest in
        (out ++ out', n2, raised')
  end.

Definition exec_item (fails : nat -> bool) (n : nat) (it : Item) : list Output * nat * bool :=
  match it with
  | Plain s => exec_stmt fails n s
  | CommentLine _ => ([], n, false)
  | BlankLine => ([], n, false)
  | Handled body handler =>
      let '(out, n1, raised) := exec_stmts fails n body in
      if raised then
        let '(out', n2, raised') := exec_stmts fails n1 handler in
        (out ++ out', n2, raised')
      else (out, n1, false)
  end.

Fixpoint exec_items (fails : nat -> bool) (n : nat) (items : list Item)
  : list Output * nat * bool :=
  match items with
  | [] => ([], n, false)
  | it :: rest =>
      let '(out, n1, raised) := exec_item fails n it in
      if raised then (out, n1, true)
      else
        let '(out', n2, raised') := exec_items fails n1 rest in
        (out ++ out', n2, raised')
  end.

(** The procedures a run has called, in order. *)
Fixpoint called (outputs : list Output) : list string :=
  match outputs with
  | [] => []
  | Called proc :: rest => proc :: called rest
  | Printed _ :: rest => called rest
  end.

(** The package a script creates and the controller calls: [migrt_] and
    the target table in lower case. *)
Definition package_of (script : Script) : string :=
  "migrt_" +:+ lower (py_str (target_table script)).

(** The call blocks of the controller for scripts whose target tables are
    strings. *)
Definition controller_blocks (scripts : list Script) : list string :=
  imap (fun i script =>
          call_text i (length scripts) (py_str (source_table script))
            (py_str (target_table script)) (package_of script)) scripts.

(** Block [i] of [n] of the controller as a program: the comment, the call
    inside a block whose handler prints the error, and the blank line that
    follows every block but the last. *)
Definition call_items (i n : nat) (source target package_name : string) : list Item :=
  [CommentLine (cat ["Migration "; pretty (i + 1); ": "; source; " to "; target]);
   Handled [CallProc (package_name +:+ ".migrate_data"); PutLine "''"]
           [PutLine (cat ["'Error in "; package_name; ": ' || SQLERRM"]); PutLine "''"]]
  ++ (if i <? n - 1 then [BlankLine] else []).

(** The controller as a program, for scripts whose target tables are
    strings. *)
Definition controller_program (scripts : list Script) : list Item :=
  [Plain (PutLine "'=== DATA MIGRATION START: ' || TO_CHAR(SYSDATE, 'DD-MON-YYYY HH24:MI:SS') || ' ==='");
   Plain (PutLine "''");
   BlankLine]
  ++ concat (imap (fun i script =>
                     call_items i (length scripts) (py_str (source_table script))
                       (py_str (target_table script)) (package_of script)) scripts)
  ++ [BlankLine;
      Plain (PutLine "'=== DATA MIGRATION END: ' || TO_CHAR(SYSDATE, 'DD-MON-YYYY HH24:MI:SS') || ' ==='")].

(** What a run of the controller puts out when the calls numbered by
    [fails] raise. *)
Definition controller_trace (fails : nat -> bool) (scripts : list Script) : list Output :=
  [Printed "'=== DATA MIGRATION START: ' || TO_CHAR(SYSDATE, 'DD-MON-YYYY HH24:MI:SS') || ' ==='";
   Printed "''"]
  ++ concat (imap (fun i script =>
                     Called (package_of script +:+ ".migrate_data")
                     :: (if fails i
                         then [Printed (cat ["'Error in "; package_of script; ": ' || SQLERRM"])]
                         else [])
                     ++ [Printed "''"]) scripts)
  ++ [Printed "'=== DATA MIGRATION END: ' || TO_CHAR(SYSDATE, 'DD-MON-YYYY HH24:MI:SS') || ' ==='"].

(** The file name of a unit whose table names are strings. *)
Definition unit_filename (timestamp s t : string) : string :=
  if String.eqb s "ALL" && String.eqb t "ALL"
  then cat [timestamp; "_migrate_all.sql"]
  else cat [timestamp; "_"; sub_nonword s; "_to_"; sub_nonword t; ".sql"].

(** The entry of [saved_files] for a script whose table names are
    strings. *)
Definition file_info_of (ts : string) (script : Script) : FileInfo :=
  {| fi_filename := unit_filename ts (py_str (source_table script))
                      (py_str (target_table script));
     fi_source_table := source_table script;
     fi_target_table := target_table script;
     fi_timestamp := ts |}.

(** Both table names of the row are strings, or absent. *)
Definition str_tables (item : gmap string PyVal) : Prop :=
  is_str (get item "source_table" "unknown_source") = true
  /\ is_str (get item "target_table" "unknown_target") = true.

(** Stripping one layer of quotes, as the specification words it: at most
    one quote character goes at each end. *)
Definition strip_one_quote_layer (s : string) : string :=
  let s1 := match s with
            | String c s' => if is_quote c then s' else s
            | EmptyString => EmptyString
            end in
  if endswith s1 (String squote "") || endswith s1 (String dquote "")
  then drop_last s1 else s1.

(** [p] occurs in [s]. *)
Definition occurs_in (p s : string) : Prop :=
  exists l r, s = l +:+ p +:+ r.

(** [s] ends with [p]. *)
Definition ends_in (p s : string) : Prop :=
  exists l, s = l +:+ p.

(** A mapping row whose fields are all strings. *)
Definition row_of (source_table target_table source_columns target_columns
    transformations where_condition related_inserts : string) : gmap string PyVal :=
  list_to_map
    [("source_table", VStr source_table);
     ("target_table", VStr target_table);
     ("source_columns", VStr source_columns);
     ("target_columns", VStr target_columns);
     ("transformations", VStr transformations);
     ("where_condition", VStr where_condition);
     ("related_inserts", VStr related_inserts)].

(** ** [allowed_file], [parse_mapping_file], the listing of [list_generated] *)

(** [s.rpartition(c)] when [c] occurs: the text before and after the last
    occurrence. *)
Fixpoint rcut (c : ascii) (s : string) : option (string * string) :=
  match s with
  | EmptyString => None
  | String a s' =>
      match rcut c s' with
      | Some (l, r) => Some (String a l, r)
      | None => if Ascii.eqb a c then Some (EmptyString, s') else None
      end
  end.

(** [s.rsplit(c, 1)]: one or two pieces. *)
Definition rsplit1 (c : ascii) (s : string) : list string :=
  match rcut c s with
  | Some (l, r) => [l; r]
  | None => [s]
  end.

(** [app.config['ALLOWED_EXTENSIONS']] *)
Definition ALLOWED_EXTENSIONS : gset string :=
  {[ "csv"; "json"; "xlsx"; "xls" ]}.

(** [allowed_file]: the second operand of [and] is evaluated only when
    the name has a dot, so the index [1] always exists. *)
Definition allowed_file (filename : string) : bool :=
  contains "." filename &&
  match rsplit1 "." filename with
  | _ :: ext :: _ => bool_decide (lower ext ∈ ALLOWED_EXTENSIONS)
  | _ => false
  end.

(** What [parse_mapping_file] does with a path: which reader it calls, or
    that it returns [None] for an extension it does not know, or that
    taking the extension raises [IndexError] (the path has no dot; this
    happens before the [try]). *)
Inductive Reader : Type :=
  | ReadCsv
  | ReadJson
  | ReadExcel
  | Unsupported
  | NoExtension.

Definition mapping_reader (file_path : string) : Reader :=
  match rsplit1 "." file_path with
  | _ :: ext :: _ =>
      let ext := lower ext in
      if String.eqb ext "csv" then ReadCsv
      else if String.eqb ext "json" then ReadJson
      else if String.eqb ext "xlsx" || String.eqb ext "xls" then ReadExcel
      else Unsupported
  | _ => NoExtension
  end.

(** [s.split(sep)] for a separator of any length: the occurrences are
    taken from the left and do not overlap.  Each cut leaves a shorter
    string, so [length s] steps are enough. *)
Fixpoint split_str_fuel (fuel : nat) (sep s : string) : list string :=
  match fuel with
  | O => [s]
  | S fuel' =>
      match cut sep s with
      | Some (l, r) => l :: split_str_fuel fuel' sep r
      | None => [s]
      end
  end.

Definition split_str (sep s : string) : list string :=
  split_str_fuel (String.length s) sep s.

(** The table names [list_generated] shows for a file that is not in the
    index: they are read back from the file name. *)
Definition listed_tables (filename : string) : string * string :=
  if contains "_to_" filename then
    match split_str "_to_" filename with
    | [p0; p1] =>
        let source_table :=
          match split1 "_" p0 with
          | _ :: x :: _ => x
          | _ => "Unknown"
          end in
        let target_table :=
          match split "." p1 with
          | x :: _ => x
          | [] => "Unknown"
          end in
        (source_table, target_table)
    | _ => ("Unknown", "Unknown")
    end
  else if contains "migrate_all" filename then ("ALL", "ALL")
  else ("Unknown", "Unknown").

(** The clauses a plain split at the commas gives: every piece trimmed,
    the last one left out when it is empty. *)
Definition comma_clauses (s : string) : list string :=
  let pieces := split "," s in
  map strip (if String.eqb (List.last pieces "") "" then removelast pieces else pieces).

(** No opening parenthesis of [s] has [MAP:] somewhere before it, in [pre]
    or in [s] itself. *)
Fixpoint no_paren_after_map (pre s : string) : bool :=
  match s with
  | EmptyString => true
  | String c s' =>
      (negb (Ascii.eqb c "(") || negb (contains "MAP:" pre))
      && no_paren_after_map (pre +:+ String c EmptyString) s'
  end.

(** [temp] and the first of the pieces that follow it make one piece. *)
Definition prepend (temp : string) (l : list string) : list string :=
  match l with
  | h :: t => (temp +:+ h) :: t
  | [] => [temp]
  end.

(** Every source field and every destination field of the mappings is
    trimmed. *)
Definition trimmed_mappings (m : gmap string ColumnTransform) : Prop :=
  forall k t, m !! k = Some t -> strip k = k /\ strip (dest_field t) = dest_field t.

(** No key twice, and no quote character left around a key or a value. *)
Definition clean_value_map (d : list (string * string)) : Prop :=
  NoDup (map fst d)
  /\ Forall (fun kv => strip_by is_quote kv.1 = kv.1 /\ strip_by is_quote kv.2 = kv.2) d.

(** The files after the scripts have been written one after the other:
    a name used again holds the later text. *)
Definition write_all (ts : string) (scripts : list Script) (fs : gmap string string)
  : gmap string string :=
  fold_left (fun fs script => <[fi_filename (file_info_of ts script) := code script]> fs)
            scripts fs.

(** * Properties *)

(** ** Strings *)

#[local] Arguments String.append !_ _ / : simpl nomatch.

Section StringFacts.

Implicit Types (s p l r : string) (c : ascii).

Lemma app_nil_r s : s +:+ "" = s.
Proof. induction s as [|c s IH]; simpl; [reflexivity | now rewrite IH]. Qed.

Lemma app_cons c s r : String c s +:+ r = String c (s +:+ r).
Proof. reflexivity. Qed.

Lemma app_assoc s1 s2 s3 : (s1 +:+ s2) +:+ s3 = s1 +:+ (s2 +:+ s3).
Proof. induction s1 as [|c s1 IH]; simpl; [reflexivity | now rewrite IH]. Qed.

Lemma app_inv_head s s1 s2 : s +:+ s1 = s +:+ s2 -> s1 = s2.
Proof. induction s as [|c s IH]; simpl; intros H; [assumption | injection H; auto]. Qed.

Lemma cat_app (l1 l2 : list string) : cat (l1 ++ l2) = cat l1 +:+ cat l2.
Proof.
  induction l1 as [|x l1 IH]; simpl; [reflexivity |].
  unfold cat in *. simpl. now rewrite IH, app_assoc.
Qed.

Lemma startswith_app p s : startswith (p +:+ s) p = true.
Proof.
  induction p as [|a p IH]; simpl; [reflexivity |].
  now rewrite Ascii.eqb_refl, IH.
Qed.

Lemma startswith_inv s p : startswith s p = true -> exists r, s = p +:+ r.
Proof.
  revert s. induction p as [|a p IH]; intros s H; simpl in *.
  - now exists s.
  - destruct s as [|b s]; [discriminate |].
    apply andb_true_iff in H as [Hab Hs].
    apply Ascii.eqb_eq in Hab. subst b.
    destruct (IH _ Hs) as [r ->]. now exists r.
Qed.

Lemma drop_app p s : drop (String.length p) (p +:+ s) = s.
Proof. induction p as [|a p IH]; simpl; [now destruct s | assumption]. Qed.

Lemma contains_intro p l r : contains p (l +:+ p +:+ r) = true.
Proof.
  induction l as [|c l IH]; simpl.
  - destruct (p +:+ r) eqn:E; simpl; rewrite <- E, startswith_app; reflexivity.
  - rewrite IH. apply orb_true_r.
Qed.

Lemma contains_inv p s : contains p s = true -> occurs_in p s.
Proof.
  induction s as [|c s IH]; simpl; intros H.
  - rewrite orb_false_r in H. apply startswith_inv in H as [r ->].
    now exists "", r.
  - apply orb_true_iff in H as [H | H].
    + apply startswith_inv in H as [r ->]. now exists "", r.
    + destruct (IH H) as (l & r & ->). now exists (String c l), r.
Qed.

(** [p in s] decides occurrence. *)
Lemma contains_spec p s : contains p s = true <-> occurs_in p s.
Proof.
  split; [apply contains_inv |].
  intros (l & r & ->). apply contains_intro.
Qed.

Lemma contains_app_r p l s : contains p s = true -> contains p (l +:+ s) = true.
Proof.
  intros H. apply contains_spec in H as (a & b & ->).
  rewrite <- app_assoc. apply contains_intro.
Qed.

Lemma contains_app_l p s r : contains p s = true -> contains p (s +:+ r) = true.
Proof.
  intros H. apply contains_spec in H as (a & b & ->).
  rewrite !app_assoc. apply contains_intro.
Qed.

Lemma contains_tail p c s : contains p (String c s) = false -> contains p s = false.
Proof. simpl. intros H. now apply orb_false_iff in H. Qed.

Lemma endswith_intro l p : endswith (l +:+ p) p = true.
Proof.
  induction l as [|c l IH]; simpl.
  - destruct p; cbn [endswith String.append]; now rewrite String.eqb_refl.
  - cbn [endswith String.append]. rewrite IH. apply orb_true_r.
Qed.

Lemma endswith_inv s p : endswith s p = true -> exists l, s = l +:+ p.
Proof.
  induction s as [|c s IH]; cbn [endswith]; intros H.
  - rewrite orb_false_r in H. apply String.eqb_eq in H. subst p. now exists "".
  - apply orb_true_iff in H as [H | H].
    + apply String.eqb_eq in H. subst p. now exists "".
    + destruct (IH H) as [l ->]. now exists (String c l).
Qed.

Lemma drop_last_snoc s c : drop_last (s +:+ String c "") = s.
Proof.
  induction s as [|a s IH]; simpl; [reflexivity |].
  rewrite IH. destruct s; reflexivity.
Qed.

Lemma occurs_in_refl s : occurs_in s s.
Proof. exists "", "". now rewrite app_nil_r. Qed.

Lemma occurs_in_trans (x y z : string) :
  occurs_in x y -> occurs_in y z -> occurs_in x z.
Proof.
  intros (l1 & r1 & ->) (l2 & r2 & ->). exists (l2 +:+ l1), (r1 +:+ r2).
  now rewrite !app_assoc.
Qed.

Lemma occurs_in_cat (l : list string) (x : string) : In x l -> occurs_in x (cat l).
Proof.
  induction l as [|a l IH]; intros H; [destruct H |].
  destruct H as [-> | H].
  - exists "", (cat l). reflexivity.
  - destruct (IH H) as (u & v & E). exists (a +:+ u), v.
    change (cat (a :: l)) with (a +:+ cat l). now rewrite E, app_assoc.
Qed.

End StringFacts.

(** ** Cutting at the first occurrence *)

Section CutFacts.

Implicit Types (s p l r sep : string) (c : ascii).

Lemma cut_of_contains sep s :
  contains sep s = true -> exists l r, cut sep s = Some (l, r).
Proof.
  induction s as [|c s IH]; cbn [contains cut]; intros H.
  - rewrite orb_false_r in H. rewrite H. eauto.
  - destruct (startswith (String c s) sep) eqn:E; [eauto |].
    cbn [orb] in H. destruct (IH H) as (l & r & ->). eauto.
Qed.

Lemma cut_none sep s : contains sep s = false -> cut sep s = None.
Proof.
  induction s as [|c s IH]; cbn [contains cut]; intros H.
  - rewrite orb_false_r in H. now rewrite H.
  - apply orb_false_iff in H as [-> H]. now rewrite IH.
Qed.

Lemma startswith_drop s sep :
  startswith s sep = true -> s = sep +:+ drop (String.length sep) s.
Proof.
  intros H. apply startswith_inv in H as [x ->]. now rewrite drop_app.
Qed.

Lemma cut_sound sep s l r : cut sep s = Some (l, r) -> s = l +:+ sep +:+ r.
Proof.
  revert l. induction s as [|c s IH]; intros l; cbn [cut].
  - destruct (startswith "" sep) eqn:E; [| discriminate].
    intros [= <- <-]. now apply startswith_drop.
  - destruct (startswith (String c s) sep) eqn:E.
    + intros [= <- <-]. now apply startswith_drop.
    + destruct (cut sep s) as [[l' r']|]; [| discriminate].
      intros [= <- <-]. simpl. f_equal. now apply IH.
Qed.

Lemma cut_here sep s :
  startswith s sep = true -> cut sep s = Some ("", drop (String.length sep) s).
Proof. destruct s; cbn [cut]; now intros ->. Qed.

(** A pattern whose first character does not come back later in it cannot
    start before the end of [x] and run into a following copy. *)
Lemma startswith_straddle a q x z :
  all_chars (fun c => negb (Ascii.eqb c a)) q = true ->
  startswith (x +:+ String a z) q = true -> startswith x q = true.
Proof.
  revert x. induction q as [|b q IH]; intros x Hq H; [reflexivity |].
  cbn [all_chars] in Hq. apply andb_true_iff in Hq as [Hb Hq].
  destruct x as [|d x]; simpl in H |- *.
  - apply andb_true_iff in H as [H _]. apply Ascii.eqb_eq in H. subst b.
    now rewrite Ascii.eqb_refl in Hb.
  - apply andb_true_iff in H as [-> H]. simpl. now apply IH.
Qed.

Lemma cut_app a q x y :
  all_chars (fun c => negb (Ascii.eqb c a)) q = true ->
  contains (String a q) x = false ->
  cut (String a q) (x +:+ String a q +:+ y) = Some (x, y).
Proof.
  intros Hq. induction x as [|c x IH]; intros Hx.
  - change ("" +:+ String a q +:+ y) with (String a q +:+ y).
    rewrite cut_here by apply startswith_app. now rewrite drop_app.
  - rewrite app_cons. cbn [cut].
    assert (startswith (String c (x +:+ String a q +:+ y)) (String a q) = false) as ->.
    { destruct (startswith _ _) eqn:E; [| reflexivity].
      cbn [contains] in Hx. apply orb_false_iff in Hx as [Hx _].
      cbn [startswith] in E, Hx. apply andb_true_iff in E as [E1 E2].
      rewrite E1 in Hx. cbn [andb] in Hx.
      rewrite app_cons in E2.
      apply startswith_straddle in E2; [congruence | assumption]. }
    rewrite IH; [reflexivity |]. eapply contains_tail, Hx.
Qed.

Lemma split1_app a q x y :
  all_chars (fun c => negb (Ascii.eqb c a)) q = true ->
  contains (String a q) x = false ->
  split1 (String a q) (x +:+ String a q +:+ y) = [x; y].
Proof. intros Hq Hx. unfold split1. now rewrite cut_app. Qed.

End CutFacts.

(** ** Stripping *)

Section StripFacts.

Variable p : ascii -> bool.
Implicit Types (s x y w : string) (c : ascii).

Lemma lstrip_all s : all_chars p s = true -> lstrip_by p s = "".
Proof.
  induction s as [|c s IH]; simpl; [reflexivity |].
  intros H. apply andb_true_iff in H as [-> H]. auto.
Qed.

Lemma rstrip_empty s : rstrip_by p s = "" <-> all_chars p s = true.
Proof.
  induction s as [|c s IH]; simpl; [tauto |].
  destruct (rstrip_by p s) eqn:E.
  - destruct (p c); simpl; [tauto |]. split; discriminate.
  - split; [discriminate |]. intros H. apply andb_true_iff in H as [_ H].
    apply IH in H. discriminate.
Qed.

Lemma rstrip_cons c s : p c = false -> rstrip_by p (String c s) = String c (rstrip_by p s).
Proof. intros H. simpl. destruct (rstrip_by p s); now rewrite ?H. Qed.

Lemma rstrip_app_keep x y :
  rstrip_by p y <> "" -> rstrip_by p (x +:+ y) = x +:+ rstrip_by p y.
Proof.
  intros Hy. induction x as [|c x IH]; simpl; [reflexivity |].
  rewrite IH. destruct (x +:+ rstrip_by p y) eqn:E; [| reflexivity].
  destruct x; simpl in E; [contradiction | discriminate].
Qed.

(** A character outside the set shields everything before it. *)
Lemma rstrip_app_cons x c y :
  p c = false -> rstrip_by p (x +:+ String c y) = x +:+ String c (rstrip_by p y).
Proof.
  intros H. rewrite rstrip_app_keep; rewrite rstrip_cons by assumption;
    [reflexivity | discriminate].
Qed.

Lemma lstrip_app_cons x c y :
  p c = false -> lstrip_by p (x +:+ String c y) = lstrip_by p x +:+ String c y.
Proof.
  intros H. induction x as [|a x IH]; simpl; [now rewrite H |].
  destruct (p a); [assumption | reflexivity].
Qed.

Lemma lstrip_suffix s : exists w, s = w +:+ lstrip_by p s.
Proof.
  induction s as [|c s [w IH]]; simpl; [now exists "" |].
  destruct (p c); [| now exists ""].
  exists (String c w). simpl. now rewrite <- IH.
Qed.

Lemma rstrip_prefix s : exists w, s = rstrip_by p s +:+ w.
Proof.
  induction s as [|c s [w IH]]; simpl; [now exists "" |].
  destruct (rstrip_by p s) eqn:E.
  - simpl in IH. subst w. destruct (p c); [now exists (String c s) | now exists s].
  - exists w. rewrite app_cons. now f_equal.
Qed.

Lemma lstrip_idem s : lstrip_by p (lstrip_by p s) = lstrip_by p s.
Proof.
  induction s as [|c s IH]; simpl; [reflexivity |].
  destruct (p c) eqn:E; [assumption |]. simpl. now rewrite E.
Qed.

Lemma rstrip_idem s : rstrip_by p (rstrip_by p s) = rstrip_by p s.
Proof.
  induction s as [|c s IH]; simpl; [reflexivity |].
  destruct (rstrip_by p s) eqn:E.
  - destruct (p c) eqn:Ec; simpl; [reflexivity | now rewrite Ec].
  - remember (String a s0) as t. simpl. rewrite IH. now subst t.
Qed.

(** Either every character is in the set, or there is a first one that is
    not. *)
Lemma first_outside s :
  all_chars p s = true \/
  exists w c y, s = w +:+ String c y /\ all_chars p w = true /\ p c = false.
Proof.
  induction s as [|a s IH]; simpl; [now left |].
  destruct (p a) eqn:E.
  - destruct IH as [-> | (w & c & y & -> & Hw & Hc)]; [now left |].
    right. exists (String a w), c, y. simpl. now rewrite E, Hw.
  - right. exists "", a, s. auto.
Qed.

Lemma lstrip_app_all w s : all_chars p w = true -> lstrip_by p (w +:+ s) = lstrip_by p s.
Proof.
  induction w as [|c w IH]; simpl; [reflexivity |].
  intros H. apply andb_true_iff in H as [-> H]. auto.
Qed.

Lemma strip_lstrip s : strip_by p (lstrip_by p s) = strip_by p s.
Proof. unfold strip_by. now rewrite lstrip_idem. Qed.

Lemma strip_rstrip s : strip_by p (rstrip_by p s) = strip_by p s.
Proof.
  unfold strip_by.
  destruct (first_outside s) as [H | (w & c & y & -> & Hw & Hc)].
  - apply rstrip_empty in H as H'. rewrite H'. simpl.
    now rewrite (lstrip_all _ H).
  - rewrite rstrip_app_cons by assumption.
    rewrite !lstrip_app_all by assumption. simpl. rewrite Hc.
    rewrite !rstrip_cons by assumption. now rewrite rstrip_idem.
Qed.

Lemma strip_idem s : strip_by p (strip_by p s) = strip_by p s.
Proof. unfold strip_by at 2. now rewrite strip_rstrip, strip_lstrip. Qed.

(** What [strip] returns is a piece of its argument. *)
Lemma strip_inside s : exists w1 w2, s = w1 +:+ strip_by p s +:+ w2.
Proof.
  destruct (lstrip_suffix s) as [w1 H1].
  destruct (rstrip_prefix (lstrip_by p s)) as [w2 H2].
  exists w1, w2. unfold strip_by. now rewrite <- H2.
Qed.

Lemma lstrip_head_outside s c y : lstrip_by p s = String c y -> p c = false.
Proof.
  induction s as [|a s IH]; simpl; [discriminate |].
  destruct (p a) eqn:E; [assumption |]. now intros [= <- <-].
Qed.

End StripFacts.

Lemma contains_strip_by q p s : contains q s = false -> contains q (strip_by p s) = false.
Proof.
  intros H. destruct (contains q (strip_by p s)) eqn:E; [| reflexivity].
  destruct (strip_inside p s) as (w1 & w2 & Hs).
  rewrite Hs in H. rewrite contains_app_r in H; [discriminate |].
  now apply contains_app_l.
Qed.

Lemma contains_lstrip_by q p s : contains q s = false -> contains q (lstrip_by p s) = false.
Proof.
  intros H. destruct (contains q (lstrip_by p s)) eqn:E; [| reflexivity].
  destruct (lstrip_suffix p s) as (w & Hs).
  rewrite Hs in H. now rewrite contains_app_r in H.
Qed.

Lemma contains_rstrip_by q p s : contains q s = false -> contains q (rstrip_by p s) = false.
Proof.
  intros H. destruct (contains q (rstrip_by p s)) eqn:E; [| reflexivity].
  destruct (rstrip_prefix p s) as (w & Hs).
  rewrite Hs in H. now rewrite contains_app_l in H.
Qed.

(** ** Splitting, joining, the parenthesis search *)

Section SplitFacts.

Implicit Types (s a b k r : string) (c : ascii).

(** [c in s] for a single character. *)
Lemma contains_char_cons c d s :
  contains (String c "") (String d s) = Ascii.eqb c d || contains (String c "") s.
Proof. cbn [contains startswith]. now rewrite andb_true_r. Qed.

Lemma contains_char_app c a b :
  contains (String c "") (a +:+ b) = contains (String c "") a || contains (String c "") b.
Proof.
  induction a as [|d a IH].
  - cbn [String.append]. reflexivity.
  - rewrite app_cons, !contains_char_cons, IH. now rewrite orb_assoc.
Qed.

Lemma split_not_nil c s : split c s <> [].
Proof.
  destruct s as [|a s]; simpl; [discriminate |].
  destruct (Ascii.eqb a c); [discriminate |]. destruct (split c s); discriminate.
Qed.

Lemma split_app_sep c a b : split c (a +:+ String c b) = split c a ++ split c b.
Proof.
  induction a as [|x a IH].
  - cbn [String.append split]. now rewrite Ascii.eqb_refl.
  - rewrite app_cons. cbn [split]. rewrite IH.
    destruct (Ascii.eqb x c); [reflexivity |].
    destruct (split c a) eqn:E; [now apply split_not_nil in E | reflexivity].
Qed.

Lemma split_no_sep c s : contains (String c "") s = false -> split c s = [s].
Proof.
  induction s as [|a s IH]; intros H; [reflexivity |].
  rewrite contains_char_cons in H. apply orb_false_iff in H as [H1 H2].
  cbn [split]. rewrite eqb_sym, H1. now rewrite IH.
Qed.

Lemma split_join c (l : list string) :
  Forall (fun s => contains (String c "") s = false) l -> l <> [] ->
  split c (join (String c "") l) = l.
Proof.
  induction 1 as [|x l Hx Hl IH]; intros Hne; [contradiction |].
  destruct l as [|y l].
  - cbn [join]. now apply split_no_sep.
  - change (join (String c "") (x :: y :: l))
      with (x +:+ String c "" +:+ join (String c "") (y :: l)).
    change (String c "" +:+ join (String c "") (y :: l))
      with (String c (join (String c "") (y :: l))).
    rewrite split_app_sep, (split_no_sep _ _ Hx), IH by discriminate. reflexivity.
Qed.

Lemma span_until_closed c k r :
  contains (String c "") k = false -> span_until c (k +:+ String c r) = (k, true).
Proof.
  induction k as [|d k IH]; intros H.
  - cbn [String.append span_until]. now rewrite Ascii.eqb_refl.
  - rewrite contains_char_cons in H. apply orb_false_iff in H as [H1 H2].
    rewrite app_cons. cbn [span_until]. rewrite eqb_sym, H1. now rewrite IH.
Qed.

Lemma span_until_open c s :
  contains (String c "") s = false -> span_until c s = (s, false).
Proof.
  induction s as [|d s IH]; intros H; [reflexivity |].
  rewrite contains_char_cons in H. apply orb_false_iff in H as [H1 H2].
  cbn [span_until]. rewrite eqb_sym, H1. now rewrite IH.
Qed.

(** Without a closing parenthesis the pattern matches nowhere. *)
Lemma search_paren_group_unclosed s :
  contains ")" s = false -> search_paren_group s = None.
Proof.
  induction s as [|a s IH]; intros H; [reflexivity |].
  rewrite contains_char_cons in H. apply orb_false_iff in H as [H1 H2].
  cbn [search_paren_group]. rewrite (span_until_open _ _ H2), IH by assumption.
  destruct (Ascii.eqb a "("); [destruct s |]; reflexivity.
Qed.

(** A non-empty group right after the first parenthesis is the match. *)
Lemma search_paren_group_first k r :
  k <> "" -> contains ")" k = false ->
  search_paren_group ("(" +:+ k +:+ ")" +:+ r) = Some k.
Proof.
  intros Hk H. change ("(" +:+ k +:+ ")" +:+ r) with (String "(" (k +:+ String ")" r)).
  cbn [search_paren_group]. rewrite Ascii.eqb_refl, span_until_closed by assumption.
  destruct k; [contradiction | reflexivity].
Qed.

Lemma search_paren_group_nonempty s g : search_paren_group s = Some g -> g <> "".
Proof.
  induction s as [|a s IH]; cbn [search_paren_group]; [discriminate |].
  destruct (Ascii.eqb a "("); [| assumption].
  destruct (span_until ")" s) as [[|g0 g'] [|]]; try assumption.
  intros [= <-]. discriminate.
Qed.

End SplitFacts.

(** ** Case conversion *)

Lemma upper_char_idem c : upper_char (upper_char c) = upper_char c.
Proof. destruct c as [[] [] [] [] [] [] [] []]; reflexivity. Qed.

Lemma upper_lower_char c : upper_char (lower_char c) = upper_char c.
Proof. destruct c as [[] [] [] [] [] [] [] []]; reflexivity. Qed.

Lemma upper_idem s : upper (upper s) = upper s.
Proof.
  induction s as [|c s IH]; simpl; [reflexivity |].
  unfold upper in *. simpl. now rewrite upper_char_idem, IH.
Qed.

Lemma upper_lower s : upper (lower s) = upper s.
Proof.
  induction s as [|c s IH]; simpl; [reflexivity |].
  unfold upper, lower in *. simpl. now rewrite upper_lower_char, IH.
Qed.

(** ** The related-insert parser *)

Section InstructionFacts.

Implicit Types (t k r rest instr : string).

Lemma lstrip_KEY : forall body : string,
  lstrip_by is_space ("KEY:" +:+ body) = "KEY:" +:+ body.
Proof. reflexivity. Qed.

(** Trimming a directive that starts with [KEY:] and has a parenthesis
    only touches the text after the parenthesis. *)
Lemma strip_KEY_paren t r :
  strip ("KEY:" +:+ t +:+ "(" +:+ r) = "KEY:" +:+ t +:+ "(" +:+ rstrip_by is_space r.
Proof.
  unfold strip, strip_by. rewrite lstrip_KEY.
  change ("KEY:" +:+ t +:+ "(" +:+ r) with ("KEY:" +:+ t +:+ String "(" r).
  rewrite <- (app_assoc "KEY:" t), rstrip_app_cons by reflexivity.
  now rewrite app_assoc.
Qed.

Lemma strip_KEY body :
  strip ("KEY:" +:+ body) = "KEY:" +:+ rstrip_by is_space body.
Proof.
  unfold strip, strip_by. rewrite lstrip_KEY.
  change ("KEY:" +:+ body) with ("KEY" +:+ String ":" body).
  now rewrite rstrip_app_cons by reflexivity.
Qed.

Lemma parse_instruction_KEY t r :
  contains "(" t = false ->
  parse_instruction ("KEY:" +:+ t +:+ "(" +:+ r)
  = parse_key_value (strip t) ("(" +:+ rstrip_by is_space r).
Proof.
  intros Ht. unfold parse_instruction. rewrite strip_KEY_paren.
  change (String.eqb ("KEY:" +:+ t +:+ "(" +:+ rstrip_by is_space r) "") with false.
  cbn iota. rewrite startswith_app.
  change (drop 4 ("KEY:" +:+ t +:+ "(" +:+ rstrip_by is_space r))
    with (t +:+ "(" +:+ rstrip_by is_space r).
  now rewrite split1_app.
Qed.

Lemma value_column_of_rstrip rest :
  value_column_of (rstrip_by is_space rest) = value_column_of rest.
Proof. unfold value_column_of, strip. now rewrite strip_rstrip. Qed.

Lemma parse_key_value_group target k rest :
  k <> "" -> contains ")" k = false ->
  parse_key_value target ("(" +:+ k +:+ ")" +:+ rest)
  = if negb (String.eqb (strip k) "") && negb (String.eqb (value_column_of rest) "")
    then Some (Key target (strip k) (value_column_of rest))
    else None.
Proof.
  intros Hk Hc. unfold parse_key_value.
  rewrite search_paren_group_first by assumption.
  change ("(" +:+ k +:+ ")" +:+ rest) with (String "(" k +:+ ")" +:+ rest).
  rewrite split1_app; [reflexivity | reflexivity |].
  rewrite contains_char_cons, Hc. reflexivity.
Qed.

(** The grammar [KEY:<t>(<k>)<rest>]. *)
Lemma parse_instruction_form t k rest :
  contains "(" t = false -> k <> "" -> contains ")" k = false ->
  parse_instruction ("KEY:" +:+ t +:+ "(" +:+ k +:+ ")" +:+ rest)
  = if negb (String.eqb (strip k) "") && negb (String.eqb (value_column_of rest) "")
    then Some (Key (strip t) (strip k) (value_column_of rest))
    else None.
Proof.
  intros Ht Hk Hc. rewrite parse_instruction_KEY by assumption.
  change (k +:+ ")" +:+ rest) with (k +:+ String ")" rest).
  rewrite rstrip_app_cons by reflexivity.
  change (k +:+ String ")" (rstrip_by is_space rest))
    with (k +:+ ")" +:+ rstrip_by is_space rest).
  rewrite parse_key_value_group by assumption.
  now rewrite value_column_of_rstrip.
Qed.

Lemma parse_key_value_retained target kv ri :
  parse_key_value target kv = Some ri ->
  exists k v, ri = Key target k v /\ k <> "" /\ v <> "".
Proof.
  unfold parse_key_value.
  destruct (search_paren_group kv) as [g|]; [| discriminate].
  destruct (split1 ")" kv) as [|x [|rest [|? ?]]]; try discriminate.
  destruct (String.eqb_spec (strip g) ""); [discriminate |].
  destruct (String.eqb_spec (value_column_of rest) ""); [discriminate |].
  intros [= <-]. eauto.
Qed.

Lemma parse_instruction_retained instr ri :
  parse_instruction instr = Some ri ->
  exists t k v, ri = Key t k v /\ k <> "" /\ v <> "".
Proof.
  unfold parse_instruction.
  destruct (String.eqb (strip instr) ""); [discriminate |].
  destruct (startswith (strip instr) "KEY:"); [| discriminate].
  destruct (split1 "(" (drop 4 (strip instr))) as [|p0 [|p1 [|? ?]]]; try discriminate.
  intros H. apply parse_key_value_retained in H as (k & v & H). eauto.
Qed.

Lemma contains_drop q n s : contains q s = false -> contains q (drop n s) = false.
Proof.
  revert s. induction n as [|n IH]; intros s H; [assumption |].
  destruct s as [|c s]; [assumption |]. simpl. apply IH.
  eapply contains_tail, H.
Qed.

(** No opening parenthesis: the directive is dropped. *)
Lemma parse_instruction_no_open instr :
  contains "(" instr = false -> parse_instruction instr = None.
Proof.
  intros H. unfold parse_instruction.
  destruct (String.eqb (strip instr) ""); [reflexivity |].
  destruct (startswith (strip instr) "KEY:"); [| reflexivity].
  unfold split1. rewrite cut_none; [reflexivity |].
  apply contains_drop. now apply contains_strip_by.
Qed.

(** No closing parenthesis: the directive is dropped. *)
Lemma parse_instruction_no_close instr :
  contains ")" instr = false -> parse_instruction instr = None.
Proof.
  intros H. unfold parse_instruction.
  destruct (String.eqb (strip instr) ""); [reflexivity |].
  destruct (startswith (strip instr) "KEY:"); [| reflexivity].
  assert (contains ")" (drop 4 (strip instr)) = false) as Hd.
  { apply contains_drop. now apply contains_strip_by. }
  unfold split1. destruct (cut "(" (drop 4 (strip instr))) as [[p0 p1]|] eqn:E;
    [| reflexivity].
  apply cut_sound in E. unfold parse_key_value.
  rewrite search_paren_group_unclosed; [reflexivity |].
  rewrite E in Hd. rewrite contains_char_app in Hd.
  apply orb_false_iff in Hd as [_ Hd]. exact Hd.
Qed.

Lemma process_related_inserts_app a b :
  process_related_inserts (VStr (a +:+ "," +:+ b))
  = process_related_inserts (VStr a) ++ process_related_inserts (VStr b).
Proof.
  assert (forall s, process_related_inserts (VStr s) = omap parse_instruction (split "," s)) as E.
  { intros s. unfold process_related_inserts.
    destruct (String.eqb_spec s ""); [now subst |]. reflexivity. }
  rewrite !E. change (a +:+ "," +:+ b) with (a +:+ String "," b).
  now rewrite split_app_sep, omap_app.
Qed.

End InstructionFacts.

(** ** The transformation parser *)

Section TransformFacts.

Implicit Types (m : gmap string ColumnTransform) (c src dest body s : string).

Lemma strip_around x a mid b y :
  is_space a = false -> is_space b = false ->
  strip (x +:+ String a (mid +:+ String b y))
  = lstrip_by is_space x +:+ String a (mid +:+ String b (rstrip_by is_space y)).
Proof.
  intros Ha Hb. unfold strip, strip_by. rewrite lstrip_app_cons by assumption.
  rewrite <- (app_cons a mid), <- app_assoc, rstrip_app_cons by assumption.
  now rewrite app_assoc, app_cons.
Qed.

Lemma add_transform_total m c : exists m', add_transform m c = Ok m'.
Proof.
  unfold add_transform. destruct (contains "->" c); [| eauto].
  destruct (split1 "->" c) as [|l [|r [|? ?]]]; eauto.
  destruct (contains "(MAP:" (strip r)) eqn:E; [| eauto].
  apply cut_of_contains in E as (d & mp & E). unfold split1. rewrite E. eauto.
Qed.

Lemma add_transforms_total m (l : list string) : exists m', add_transforms m l = Ok m'.
Proof.
  revert m. induction l as [|c l IH]; intros m; simpl; [eauto |].
  destruct (add_transform_total m c) as [m' ->]. apply IH.
Qed.

Lemma process_transformations_total v : exists m, process_transformations v = Ok m.
Proof.
  destruct v as [s|b t]; simpl; [| eauto].
  destruct (String.eqb s ""); [eauto | apply add_transforms_total].
Qed.

Lemma add_transform_skip m c : contains "->" c = false -> add_transform m c = Ok m.
Proof. intros H. unfold add_transform. now rewrite H. Qed.

Lemma add_transforms_skip m (l1 l2 : list string) c :
  contains "->" c = false ->
  add_transforms m (l1 ++ c :: l2) = add_transforms m (l1 ++ l2).
Proof.
  intros H. revert m. induction l1 as [|x l1 IH]; intros m; simpl.
  - now rewrite add_transform_skip.
  - destruct (add_transform m x); [apply IH | reflexivity].
Qed.

Lemma add_transforms_one m c : add_transforms m [c] = add_transform m c.
Proof. simpl. now destruct (add_transform m c). Qed.

(** A clause [src->dest] without a value map. *)
Lemma add_transform_plain m src dest :
  contains "->" src = false -> contains "(MAP:" dest = false ->
  add_transform m (src +:+ "->" +:+ dest)
  = Ok (<[strip src := {| dest_field := strip dest; value_maps := None |}]> m).
Proof.
  intros Hs Hd. unfold add_transform.
  rewrite (contains_intro "->" src dest), split1_app by (reflexivity || assumption).
  fold (strip dest) in *. pose proof (contains_strip_by _ is_space _ Hd) as Hd'.
  fold (strip dest) in Hd'. now rewrite Hd'.
Qed.

(** A clause [src->dest(MAP:body]. *)
Lemma add_transform_map m src dest body :
  contains "->" src = false -> contains "(MAP:" dest = false ->
  add_transform m (src +:+ "->" +:+ dest +:+ "(MAP:" +:+ body)
  = Ok (<[strip src :=
            {| dest_field := strip dest;
               value_maps := Some (parse_value_maps
                                     (strip_closing_paren (rstrip_by is_space body))) |}]> m).
Proof.
  intros Hs Hd. unfold add_transform.
  rewrite (contains_intro "->" src _), split1_app by (reflexivity || assumption).
  change (dest +:+ "(MAP:" +:+ body) with (dest +:+ String "(" ("MAP" +:+ String ":" body)).
  rewrite strip_around by reflexivity.
  change (lstrip_by is_space dest +:+ String "(" ("MAP" +:+ String ":" (rstrip_by is_space body)))
    with (lstrip_by is_space dest +:+ "(MAP:" +:+ rstrip_by is_space body).
  rewrite contains_intro, split1_app;
    [| reflexivity | now apply contains_lstrip_by].
  unfold strip at 2. now rewrite strip_lstrip.
Qed.

Lemma strip_closing_paren_closed s : strip_closing_paren (s +:+ ")") = strip s.
Proof.
  unfold strip_closing_paren. now rewrite endswith_intro, drop_last_snoc.
Qed.

(** One [key->value] item of a value map. *)
Lemma add_value_map_pair (d : list (string * string)) k v :
  contains "->" k = false ->
  add_value_map d (k +:+ "->" +:+ v)
  = dict_set (strip_by is_quote (strip k)) (strip_by is_quote (strip v)) d.
Proof.
  intros Hk. unfold add_value_map.
  now rewrite (contains_intro "->" k v), split1_app by (reflexivity || assumption).
Qed.

Lemma fold_add_value_map (pairs : list (string * string)) (d : list (string * string)) :
  Forall (fun kv => contains "->" kv.1 = false) pairs ->
  fold_left add_value_map (map (fun kv => kv.1 +:+ "->" +:+ kv.2) pairs) d
  = fold_left (fun d kv => dict_set (strip_by is_quote (strip kv.1))
                                    (strip_by is_quote (strip kv.2)) d) pairs d.
Proof.
  intros H. revert d. induction H as [|[k v] pairs Hk _ IH]; intros d; [reflexivity |].
  cbn [map fold_left fst snd] in *. now rewrite add_value_map_pair, IH.
Qed.

(** The splitter on a string without a comma: everything stays in [temp]. *)
Lemma fold_split_step_no_comma s (acc : list string) temp depth :
  contains "," s = false ->
  exists depth', fold_chars split_step (acc, temp, depth) s = (acc, temp +:+ s, depth').
Proof.
  revert temp depth. induction s as [|c s IH]; intros temp depth H.
  - exists depth. simpl. now rewrite app_nil_r.
  - rewrite contains_char_cons in H. apply orb_false_iff in H as [H1 H2].
    cbn [fold_chars]. unfold split_step at 2. rewrite eqb_sym, H1. cbn [andb].
    match goal with |- context [fold_chars _ (_, _, ?d) _] =>
      destruct (IH (temp +:+ String c "") d H2) as [d' ->] end.
    exists d'. now rewrite app_assoc.
Qed.

Lemma split_transformations_no_comma s :
  contains "," s = false -> s <> "" -> split_transformations s = [strip s].
Proof.
  intros H Hs. unfold split_transformations.
  destruct (fold_split_step_no_comma s [] "" 0 H) as [d ->].
  change ("" +:+ s) with s. now destruct (String.eqb_spec s "").
Qed.

Lemma process_transformations_no_comma s :
  contains "," s = false -> s <> "" ->
  process_transformations (VStr s) = add_transform ∅ (strip s).
Proof.
  intros H Hs. simpl. destruct (String.eqb_spec s ""); [contradiction |].
  now rewrite split_transformations_no_comma, add_transforms_one.
Qed.

End TransformFacts.

(** ** What [strip] with a character set leaves *)

Section StripSpec.

Variable p : ascii -> bool.

Lemma lstrip_suffix_all s : exists w, s = w +:+ lstrip_by p s /\ all_chars p w = true.
Proof.
  induction s as [|c s (w & IH & Hw)]; simpl; [now exists "" |].
  destruct (p c) eqn:E; [| now exists ""].
  exists (String c w). simpl. rewrite E, Hw. split; [now f_equal | reflexivity].
Qed.

Lemma rstrip_prefix_all s : exists w, s = rstrip_by p s +:+ w /\ all_chars p w = true.
Proof.
  induction s as [|c s (w & IH & Hw)]; simpl; [now exists "" |].
  destruct (rstrip_by p s) eqn:E.
  - simpl in IH. subst w. destruct (p c) eqn:Ec.
    + exists (String c s). simpl. now rewrite Ec, Hw.
    + now exists s.
  - exists w. rewrite app_cons. split; [now f_equal | assumption].
Qed.

Lemma rstrip_last_outside s x c : rstrip_by p s = x +:+ String c "" -> p c = false.
Proof.
  revert x. induction s as [|a s IH]; intros x; simpl.
  - destruct x; discriminate.
  - destruct (rstrip_by p s) eqn:E.
    + destruct (p a) eqn:Ea; [destruct x; discriminate |].
      destruct x as [|b [|? ?]]; simpl; try discriminate. now intros [= <-].
    + destruct x as [|b x]; simpl.
      * discriminate.
      * intros [= <- H]. now apply (IH x).
Qed.

(** [s.strip(chars)] takes away every leading and every trailing
    character of the set, and nothing else. *)
Lemma strip_by_spec s :
  (exists l r, s = l +:+ strip_by p s +:+ r
               /\ all_chars p l = true /\ all_chars p r = true)
  /\ (forall c y, strip_by p s = String c y -> p c = false)
  /\ (forall x c, strip_by p s = x +:+ String c "" -> p c = false).
Proof.
  split; [| split].
  - destruct (lstrip_suffix_all s) as (l & Hl & Hpl).
    destruct (rstrip_prefix_all (lstrip_by p s)) as (r & Hr & Hpr).
    exists l, r. unfold strip_by. now rewrite <- Hr.
  - intros c y H. unfold strip_by in H.
    destruct (rstrip_prefix p (lstrip_by p s)) as [w Hw]. rewrite H in Hw.
    eapply lstrip_head_outside, Hw.
  - intros x c. apply rstrip_last_outside.
Qed.

End StripSpec.

(** ** The insert statement *)

Section InsertFacts.

Context {B : Type}.

(** A loop that writes one entry while [i < n] and nothing afterwards
    writes the entries of the first [n] elements. *)
Lemma concat_imap_guard (g : nat -> string -> B) (n : nat) (l : list string) :
  concat (imap (fun i x => if i <? n then [g i x] else []) l) = imap g (take n l).
Proof.
  revert g n. induction l as [|x l IH]; intros g n; [now destruct n |].
  rewrite imap_cons. destruct n as [|n].
  - cbn [concat take imap app Nat.ltb Nat.leb].
    rewrite (imap_ext _ (fun i x => if i <? 0 then [(g ∘ S) i x] else [])) by reflexivity.
    rewrite IH. reflexivity.
  - cbn [concat take Nat.ltb Nat.leb app]. rewrite imap_cons. f_equal.
    rewrite (imap_ext _ (fun i x => if i <? n then [(g ∘ S) i x] else [])) by reflexivity.
    apply IH.
Qed.

End InsertFacts.

Lemma insert_value_lines_take tr (sc tc : list string) :
  insert_value_lines tr sc tc = imap (value_entry tr tc) (take (length tc) sc).
Proof. unfold insert_value_lines. now rewrite concat_imap_guard. Qed.

Lemma value_text_render tr c : value_text tr c = render (value_expr tr c).
Proof.
  unfold value_text, value_expr.
  destruct (tr !! c) as [[d [vm|]]|]; reflexivity.
Qed.

Lemma first_match_fresh v (vm : list (string * string)) :
  Forall (fun kv => kv.1 <> v) vm -> first_match v vm = None.
Proof.
  induction 1 as [|[k d] vm Hk _ IH]; [reflexivity |].
  simpl in *. destruct (String.eqb_spec v k); [congruence | assumption].
Qed.

Lemma first_match_first v d (l1 l2 : list (string * string)) :
  Forall (fun kv => kv.1 <> v) l1 -> first_match v (l1 ++ (v, d) :: l2) = Some d.
Proof.
  induction 1 as [|[k e] l1 Hk _ IH]; simpl.
  - now rewrite String.eqb_refl.
  - simpl in Hk. destruct (String.eqb_spec v k); [congruence | assumption].
Qed.

Lemma script_code_insert_statement (m : NormalizedMapping) (package_name : string) :
  occurs_in (insert_statement m) (script_code m package_name).
Proof.
  exists (cat (take 89 (script_parts m package_name))),
         (cat (List.skipn 103 (script_parts m package_name))).
  unfold script_code, insert_statement. rewrite <- !cat_app. reflexivity.
Qed.

Lemma script_code_value_lines (m : NormalizedMapping) (package_name : string) :
  occurs_in (cat (insert_value_lines (nm_transformations m) (nm_source_columns m)
                    (nm_target_columns m)))
            (script_code m package_name).
Proof.
  eapply occurs_in_trans; [| apply script_code_insert_statement].
  apply occurs_in_cat. unfold insert_statement.
  repeat (first [left; reflexivity | right]).
Qed.

Lemma script_code_value_entry (m : NormalizedMapping) (package_name : string) i entry :
  insert_value_lines (nm_transformations m) (nm_source_columns m) (nm_target_columns m) !! i
  = Some entry ->
  occurs_in entry (script_code m package_name).
Proof.
  intros H. eapply occurs_in_trans; [| apply script_code_value_lines].
  apply occurs_in_cat, list_elem_of_In, list_elem_of_lookup. now exists i.
Qed.

(** C1: a defect of the code.  The loop that writes the [VALUES] list stops
    at len(target_columns), the loop that writes the column list has no such
    guard, and both take their commas from len(target_columns) - 1.  With
    four source columns and two target columns the insert has two entries on
    each side, as the claim says.  With source column [A] and target columns
    [X,Y] the minimum is one, but the column list has the two entries [X]
    and [Y] and the [VALUES] list the single entry for [A], followed by a
    comma: the statement in the generated script is not balanced. *)
Theorem insert_lists_entries :
  (exists m,
      normalize (row_of "SRC" "TGT" "A,B,C,D" "X,Y" "" "" "") = Ok m
      /\ insert_column_lines (nm_target_columns m)
         = [cat ["          X,"; nl]; cat ["          Y"; nl]]
      /\ insert_value_lines (nm_transformations m) (nm_source_columns m)
           (nm_target_columns m)
         = [cat ["          v_source_data(i).A,"; nl];
            cat ["          v_source_data(i).B"; nl]])
  /\ exists m script,
       normalize (row_of "SRC" "TGT" "A" "X,Y" "" "" "") = Ok m
       /\ build_script (row_of "SRC" "TGT" "A" "X,Y" "" "" "") = Ok script
       /\ nm_source_columns m = ["A"]
       /\ nm_target_columns m = ["X"; "Y"]
       /\ Nat.min (length (nm_source_columns m)) (length (nm_target_columns m)) = 1
       /\ insert_column_lines (nm_target_columns m)
          = [cat ["          X,"; nl]; cat ["          Y"; nl]]
       /\ insert_value_lines (nm_transformations m) (nm_source_columns m)
            (nm_target_columns m)
          = [cat ["          v_source_data(i).A,"; nl]]
       /\ length (insert_column_lines (nm_target_columns m))
          <> Nat.min (length (nm_source_columns m)) (length (nm_target_columns m))
       /\ length (insert_column_lines (nm_target_columns m))
          <> length (insert_value_lines (nm_transformations m) (nm_source_columns m)
                       (nm_target_columns m))
       /\ occurs_in (cat ["        INSERT INTO TGT ("; nl;
                          "          X,"; nl;
                          "          Y"; nl;
                          "        ) VALUES ("; nl;
                          "          v_source_data(i).A,"; nl;
                          "        );"; nl])
                    (code script).
Proof.
  split.
  - eexists. split; [vm_compute; reflexivity |].
    split; vm_compute; reflexivity.
  - eexists. eexists. split; [vm_compute; reflexivity |].
    split; [vm_compute; reflexivity |].
    cbn [nm_source_columns nm_target_columns nm_transformations code].
    split; [reflexivity |]. split; [reflexivity |]. split; [reflexivity |].
    split; [vm_compute; reflexivity |]. split; [vm_compute; reflexivity |].
    split; [vm_compute; discriminate |]. split; [vm_compute; discriminate |].
    apply contains_spec. vm_compute. reflexivity.
Qed.

(** C5 (amended).  A source column that is written to the [VALUES] list, that
    is, one whose index is below len(target_columns), and that carries a
    value map is written into the generated script as a [CASE] on the source
    value with one [WHEN] branch per map entry, in the order of the map, and
    an [ELSE] branch that returns the source value; read as a simple [CASE],
    the first branch whose key equals the value decides and a value that is
    no key comes back unchanged (so ['z'] yields ['z'] under the map x:1,
    y:2); a written column without a value map is written as the plain
    source value.  A source column whose index is len(target_columns) or
    more is not written at all, value map or not. *)
Theorem value_map_case_expression
    (m : NormalizedMapping) (i : nat) (src : string)
    (Hsrc : nm_source_columns m !! i = Some src) :
  (i < length (nm_target_columns m) ->
     insert_value_lines (nm_transformations m) (nm_source_columns m)
       (nm_target_columns m) !! i
     = Some (cat ["          "; render (value_expr (nm_transformations m) (strip src));
                  comma_unless_last i (nm_target_columns m); nl])
     /\ forall package_name,
          occurs_in (cat ["          ";
                          render (value_expr (nm_transformations m) (strip src));
                          comma_unless_last i (nm_target_columns m); nl])
                    (script_code m package_name))
  /\ (length (nm_target_columns m) <= i ->
        insert_value_lines (nm_transformations m) (nm_source_columns m)
          (nm_target_columns m) !! i = None
        /\ insert_value_lines (nm_transformations m) (nm_source_columns m)
             (nm_target_columns m)
           = insert_value_lines (nm_transformations m)
               (take i (nm_source_columns m)) (nm_target_columns m))
  /\ (forall t vm,
        nm_transformations m !! strip src = Some t -> value_maps t = Some vm ->
        value_expr (nm_transformations m) (strip src) = CaseMap (strip src) vm
        /\ render (CaseMap (strip src) vm)
           = cat ["CASE v_source_data(i)."; strip src; nl;
                  cat (map (fun kv => cat ["            WHEN '"; kv.1; "' THEN "; kv.2; nl]) vm);
                  "            ELSE v_source_data(i)."; strip src; nl;
                  "          END"]
        /\ (forall v, Forall (fun kv => kv.1 <> v) vm ->
              eval (CaseMap (strip src) vm) v = v)
        /\ (forall l1 k d l2, vm = l1 ++ (k, d) :: l2 ->
              Forall (fun kv => kv.1 <> k) l1 ->
              eval (CaseMap (strip src) vm) k = d))
  /\ ((nm_transformations m !! strip src = None
       \/ exists t, nm_transformations m !! strip src = Some t /\ value_maps t = None) ->
        value_expr (nm_transformations m) (strip src) = Direct (strip src)
        /\ render (Direct (strip src)) = cat ["v_source_data(i)."; strip src]
        /\ forall v, eval (Direct (strip src)) v = v)
  /\ eval (CaseMap "A" [("x", "1"); ("y", "2")]) "z" = "z".
Proof.
  pose proof (script_code_value_entry m) as Hcode.
  destruct m as [st tt sc tc wc tr ri].
  cbn [nm_transformations nm_source_columns nm_target_columns] in *.
  assert (i < length tc ->
          insert_value_lines tr sc tc !! i
          = Some (cat ["          "; render (value_expr tr (strip src));
                       comma_unless_last i tc; nl])) as Hentry.
  { intros Hi.
    rewrite insert_value_lines_take, list_lookup_imap, lookup_take_lt by assumption.
    rewrite Hsrc. cbn [fmap option_fmap option_map]. unfold value_entry.
    now rewrite value_text_render. }
  split; [| split; [| split; [| split]]].
  - intros Hi. split; [now apply Hentry |].
    intros package_name. apply (Hcode package_name i). now apply Hentry.
  - intros Hi. split.
    + apply lookup_ge_None_2.
      rewrite insert_value_lines_take, length_imap, length_take. lia.
    + rewrite !insert_value_lines_take. f_equal. rewrite take_take. f_equal. lia.
  - intros t vm Ht Hvm. split; [| split; [| split]].
    + unfold value_expr. rewrite Ht. destruct t as [d o]. simpl in Hvm. now subst o.
    + cbn [render].
      assert (map when_line vm
              = map (fun kv => cat ["            WHEN '"; kv.1; "' THEN "; kv.2; nl]) vm)
        as -> by (apply map_ext; now intros [k d]).
      reflexivity.
    + intros v Hv. cbn [eval]. now rewrite first_match_fresh.
    + intros l1 k d l2 -> Hk. cbn [eval]. now rewrite first_match_first.
  - intros H. split; [| split]; [| reflexivity | reflexivity].
    unfold value_expr. destruct H as [-> | (t & -> & Ht)]; [reflexivity |].
    destruct t as [d o]. simpl in Ht. now subst o.
  - reflexivity.
Qed.

Lemma value_map_case_expression_witness :
  ["ID"; "STATUS"] !! 1 = Some "STATUS"
  /\ insert_value_lines
       {[ "STATUS" := {| dest_field := "STATUS_CODE";
                         value_maps := Some [("A", "1"); ("I", "0")] |} ]}
       ["ID"; "STATUS"] ["ID"; "STATUS_CODE"] !! 1
     = Some (cat ["          ";
                  render (CaseMap "STATUS" [("A", "1"); ("I", "0")]);
                  ""; nl]).
Proof.
  split; [reflexivity |].
  pose proof (value_map_case_expression
                {| nm_source_table := VStr "S"; nm_target_table := VStr "T";
                   nm_source_columns := ["ID"; "STATUS"];
                   nm_target_columns := ["ID"; "STATUS_CODE"];
                   nm_where_condition := VStr "";
                   nm_transformations :=
                     {[ "STATUS" := {| dest_field := "STATUS_CODE";
                                       value_maps := Some [("A", "1"); ("I", "0")] |} ]};
                   nm_related_inserts := [] |} 1 "STATUS" eq_refl) as (H & _).
  cbn [nm_source_columns nm_target_columns nm_transformations] in H.
  rewrite (proj1 (H ltac:(simpl; lia))). vm_compute. reflexivity.
Defined.

(** C5, as stated, fails: in a row with source columns [ID,STATUS] and the
    single target column [ID], the source column [STATUS] carries a value
    map, but it is beyond the target columns, so the insert has the one
    entry for [ID] and the generated script has no [CASE] anywhere. *)
Lemma value_map_case_expression_counterexample :
  exists m script,
    normalize (row_of "S" "T" "ID,STATUS" "ID" "STATUS->STATUS_CODE(MAP: 'A'->1)" "" "")
    = Ok m
    /\ build_script
         (row_of "S" "T" "ID,STATUS" "ID" "STATUS->STATUS_CODE(MAP: 'A'->1)" "" "")
       = Ok script
    /\ nm_source_columns m = ["ID"; "STATUS"]
    /\ nm_transformations m !! "STATUS"
       = Some {| dest_field := "STATUS_CODE"; value_maps := Some [("A", "1")] |}
    /\ insert_value_lines (nm_transformations m) (nm_source_columns m)
         (nm_target_columns m)
       = [cat ["          v_source_data(i).ID"; nl]]
    /\ contains "CASE" (code script) = false
    /\ ~ occurs_in "CASE" (code script).
Proof.
  eexists. eexists. split; [vm_compute; reflexivity |].
  split; [vm_compute; reflexivity |].
  cbn [nm_source_columns nm_target_columns nm_transformations code].
  split; [reflexivity |]. split; [vm_compute; reflexivity |].
  split; [vm_compute; reflexivity |].
  assert (contains "CASE"
            (script_code
               {| nm_source_table := VStr "S"; nm_target_table := VStr "T";
                  nm_source_columns := ["ID"; "STATUS"];
                  nm_target_columns := ["ID"];
                  nm_where_condition := VStr "";
                  nm_transformations :=
                    {[ "STATUS" := {| dest_field := "STATUS_CODE";
                                      value_maps := Some [("A", "1")] |} ]};
                  nm_related_inserts := [] |} "migrt_t") = false) as H
    by (vm_compute; reflexivity).
  split.
  - etransitivity; [| exact H]. vm_compute. reflexivity.
  - intros Hc. apply contains_spec in Hc.
    assert (contains "CASE" (script_code
               {| nm_source_table := VStr "S"; nm_target_table := VStr "T";
                  nm_source_columns := ["ID"; "STATUS"];
                  nm_target_columns := ["ID"];
                  nm_where_condition := VStr "";
                  nm_transformations :=
                    {[ "STATUS" := {| dest_field := "STATUS_CODE";
                                      value_maps := Some [("A", "1")] |} ]};
                  nm_related_inserts := [] |} "migrt_t") = true) as H'.
    { etransitivity; [| exact Hc]. vm_compute. reflexivity. }
    rewrite H in H'. discriminate.
Qed.

(** ** Type inference *)

Lemma endswith_spec s p : endswith s p = true <-> ends_in p s.
Proof.
  split; [apply endswith_inv |]. intros [l ->]. apply endswith_intro.
Qed.

Lemma contains_false_iff p s : contains p s = false <-> ~ occurs_in p s.
Proof.
  rewrite <- contains_spec. destruct (contains p s); split; congruence.
Qed.

(** C9.  The type of a record field depends on the column name only,
    through its upper-case form, by the first rule that applies: a name
    containing ID (or ending in _ID) gives NUMBER; else a name containing
    DATE or TIME gives DATE; else a name containing AMOUNT, PRICE or COST
    gives NUMBER; else VARCHAR2(4000).  So CUSTOMER_ID is a NUMBER,
    ORDER_DATE a DATE, TOTAL_AMOUNT a NUMBER and STATUS a VARCHAR2(4000). *)
Theorem infer_type_rules (col : string) :
  (((occurs_in "ID" (upper col) \/ ends_in "_ID" (upper col))
    /\ infer_type col = "NUMBER")
   \/ (~ (occurs_in "ID" (upper col) \/ ends_in "_ID" (upper col))
       /\ (occurs_in "DATE" (upper col) \/ occurs_in "TIME" (upper col))
       /\ infer_type col = "DATE")
   \/ (~ (occurs_in "ID" (upper col) \/ ends_in "_ID" (upper col))
       /\ ~ (occurs_in "DATE" (upper col) \/ occurs_in "TIME" (upper col))
       /\ (occurs_in "AMOUNT" (upper col) \/ occurs_in "PRICE" (upper col)
           \/ occurs_in "COST" (upper col))
       /\ infer_type col = "NUMBER")
   \/ (~ (occurs_in "ID" (upper col) \/ ends_in "_ID" (upper col))
       /\ ~ (occurs_in "DATE" (upper col) \/ occurs_in "TIME" (upper col))
       /\ ~ (occurs_in "AMOUNT" (upper col) \/ occurs_in "PRICE" (upper col)
             \/ occurs_in "COST" (upper col))
       /\ infer_type col = "VARCHAR2(4000)"))
  /\ infer_type (upper col) = infer_type col
  /\ infer_type (lower col) = infer_type col
  /\ record_lines [col] = [cat ["      "; strip col; " "; infer_type col; nl]]
  /\ infer_type "CUSTOMER_ID" = "NUMBER"
  /\ infer_type "ORDER_DATE" = "DATE"
  /\ infer_type "TOTAL_AMOUNT" = "NUMBER"
  /\ infer_type "STATUS" = "VARCHAR2(4000)".
Proof.
  split; [| repeat split].
  - unfold infer_type.
    destruct (contains "ID" (upper col)) eqn:E1.
    { left. split; [| reflexivity]. left. now apply contains_spec. }
    destruct (endswith (upper col) "_ID") eqn:E2.
    { left. split; [| reflexivity]. right. now apply endswith_spec. }
    right. cbn [orb].
    assert (~ (occurs_in "ID" (upper col) \/ ends_in "_ID" (upper col))) as N1.
    { intros [H | H]; [apply contains_spec in H | apply endswith_spec in H]; congruence. }
    destruct (contains "DATE" (upper col)) eqn:E3.
    { left. repeat split; [assumption |]. left. now apply contains_spec. }
    destruct (contains "TIME" (upper col)) eqn:E4.
    { left. repeat split; [assumption |]. right. now apply contains_spec. }
    right. cbn [orb].
    assert (~ (occurs_in "DATE" (upper col) \/ occurs_in "TIME" (upper col))) as N2.
    { intros [H | H]; apply contains_spec in H; congruence. }
    destruct (contains "AMOUNT" (upper col)) eqn:E5.
    { left. repeat split; [assumption | assumption |]. left. now apply contains_spec. }
    destruct (contains "PRICE" (upper col)) eqn:E6.
    { left. repeat split; [assumption | assumption |]. right. left. now apply contains_spec. }
    destruct (contains "COST" (upper col)) eqn:E7.
    { left. repeat split; [assumption | assumption |]. right. right. now apply contains_spec. }
    right. cbn [orb]. repeat split; [assumption | assumption |].
    intros [H | [H | H]]; apply contains_spec in H; congruence.
  - unfold infer_type. now rewrite upper_idem.
  - unfold infer_type. now rewrite upper_lower.
Qed.

(** ** Related-insert directives *)

Lemma parse_key_value_target t1 t2 kv :
  parse_key_value t1 kv
  = (fun ri => match ri with Key _ k v => Key t1 k v end) <$> parse_key_value t2 kv.
Proof.
  unfold parse_key_value.
  destruct (search_paren_group kv) as [g|]; [| reflexivity].
  destruct (split1 ")" kv) as [|x [|rest [|? ?]]]; try reflexivity.
  now destruct (negb (String.eqb (strip g) "") && negb (String.eqb (value_column_of rest) "")).
Qed.

Lemma strip_head c v :
  is_space c = false -> strip (String c v) = String c (rstrip_by is_space v).
Proof.
  intros H. unfold strip, strip_by. cbn [lstrip_by]. rewrite H.
  now apply rstrip_cons.
Qed.

Lemma value_column_of_colon v : value_column_of (":" +:+ v) = strip v.
Proof.
  unfold value_column_of. change (":" +:+ v) with (String ":" v).
  rewrite strip_head by reflexivity. cbn [startswith drop].
  rewrite Ascii.eqb_refl. cbn [andb]. unfold strip. apply strip_rstrip.
Qed.

(** C6 (amended).  [KEY:migrt_key(ID):NAME] parses to exactly one Key
    directive with target_table migrt_key, key_column ID and value_column
    NAME.  In general, for a directive [KEY:<t>(<k>)<rest>] in which [<t>]
    has no ['('] and [<k>] is not empty and has no [')'], target_table is
    [<t>] trimmed, key_column is [<k>] trimmed and value_column is [<rest>]
    trimmed, without one leading colon and trimmed again; the directive is
    kept when both columns are non-empty. *)
Theorem key_directive_parse :
  process_related_inserts (VStr "KEY:migrt_key(ID):NAME") = [Key "migrt_key" "ID" "NAME"]
  /\ (forall t k rest,
        contains "(" t = false -> k <> "" -> contains ")" k = false ->
        parse_instruction ("KEY:" +:+ t +:+ "(" +:+ k +:+ ")" +:+ rest)
        = if negb (String.eqb (strip k) "") && negb (String.eqb (value_column_of rest) "")
          then Some (Key (strip t) (strip k) (value_column_of rest))
          else None)
  /\ (forall v, value_column_of (":" +:+ v) = strip v)
  /\ (forall rest, startswith (strip rest) ":" = false -> value_column_of rest = strip rest)
  /\ value_column_of "::NAME" = ":NAME".
Proof.
  split; [reflexivity |]. split; [apply parse_instruction_form |].
  split; [apply value_column_of_colon |]. split; [| reflexivity].
  intros rest H. unfold value_column_of. now rewrite H.
Qed.

Lemma key_directive_parse_witness :
  (contains "(" " lookup " = false /\ " ID " <> "" /\ contains ")" " ID " = false)
  /\ parse_instruction ("KEY:" +:+ " lookup " +:+ "(" +:+ " ID " +:+ ")" +:+ " : NAME ")
     = Some (Key "lookup" "ID" "NAME").
Proof.
  split; [repeat split; discriminate |].
  rewrite (proj1 (proj2 key_directive_parse) " lookup " " ID " " : NAME ");
    [reflexivity | reflexivity | discriminate | reflexivity].
Defined.

(** C6, as stated, fails when the first parenthesis is closed at once: the
    pattern then matches the next group, [(ID)], while the value column is
    still cut at the first [')'] of the directive, so it is not the text
    after the [')'] of the group that gave the key column. *)
Lemma key_directive_parse_counterexample :
  process_related_inserts (VStr "KEY:t()(ID):NAME") = [Key "t" "ID" "(ID):NAME"]
  /\ search_paren_group "()(ID):NAME" = Some "ID"
  /\ cut "(ID)" "()(ID):NAME" = Some ("()", ":NAME")
  /\ value_column_of ":NAME" = "NAME"
  /\ "(ID):NAME" <> "NAME".
Proof. repeat split; try reflexivity. discriminate. Qed.

(** C7.  Neither parser raises, whatever the input.  A transform clause
    without [->] leaves the mappings as they are and the clauses after it
    are still applied; a KEY directive without ['('], without [')'], or
    with an empty key or value column is dropped ([KEY:tbl(ID] gives the
    empty list), and the directives on either side of a comma are parsed
    independently of each other. *)
Theorem parsers_recover_locally :
  (forall v, exists m, process_transformations v = Ok m)
  /\ (forall m c, contains "->" c = false -> add_transform m c = Ok m)
  /\ (forall m l1 c l2, contains "->" c = false ->
        add_transforms m (l1 ++ c :: l2) = add_transforms m (l1 ++ l2))
  /\ (forall instr, contains "(" instr = false -> parse_instruction instr = None)
  /\ (forall instr, contains ")" instr = false -> parse_instruction instr = None)
  /\ (forall instr ri, parse_instruction instr = Some ri ->
        exists t k v, ri = Key t k v /\ k <> "" /\ v <> "")
  /\ (forall t k rest,
        contains "(" t = false -> k <> "" -> contains ")" k = false ->
        strip k = "" \/ value_column_of rest = "" ->
        parse_instruction ("KEY:" +:+ t +:+ "(" +:+ k +:+ ")" +:+ rest) = None)
  /\ (forall a b,
        process_related_inserts (VStr (a +:+ "," +:+ b))
        = process_related_inserts (VStr a) ++ process_related_inserts (VStr b))
  /\ process_related_inserts (VStr "KEY:tbl(ID") = []
  /\ process_related_inserts (VStr "KEY:tbl(ID,KEY:migrt_key(ID):NAME")
     = [Key "migrt_key" "ID" "NAME"]
  /\ process_transformations (VStr "A->B,no arrow here,C->D")
     = Ok (<["C" := {| dest_field := "D"; value_maps := None |}]>
             (<["A" := {| dest_field := "B"; value_maps := None |}]> ∅)).
Proof.
  split; [apply process_transformations_total |].
  split; [apply add_transform_skip |].
  split; [intros; now apply add_transforms_skip |].
  split; [apply parse_instruction_no_open |].
  split; [apply parse_instruction_no_close |].
  split; [apply parse_instruction_retained |].
  split.
  { intros t k rest Ht Hk Hc H. rewrite parse_instruction_form by assumption.
    destruct H as [-> | ->]; [reflexivity |]. now rewrite andb_false_r. }
  split; [apply process_related_inserts_app |].
  repeat split; vm_compute; reflexivity.
Qed.

Lemma parsers_recover_locally_witness :
  (contains "(" "KEY:tbl" = false /\ contains "->" "no arrow here" = false)
  /\ parse_instruction "KEY:tbl" = None
  /\ add_transform ∅ "no arrow here" = Ok ∅.
Proof.
  split; [split; reflexivity |]. split.
  - apply (proj1 (proj2 (proj2 (proj2 parsers_recover_locally)))). reflexivity.
  - apply (proj1 (proj2 parsers_recover_locally)). reflexivity.
Defined.

(** ** Transform clauses *)

Lemma contains_comma_clause k v :
  contains "," k = false -> contains "," v = false ->
  contains "," (k +:+ "->" +:+ v) = false.
Proof.
  intros Hk Hv. rewrite !contains_char_app, Hk, Hv. reflexivity.
Qed.

Lemma parse_value_maps_pairs (pairs : list (string * string)) :
  Forall (fun kv => contains "->" kv.1 = false
                    /\ contains "," kv.1 = false /\ contains "," kv.2 = false) pairs ->
  parse_value_maps (join "," (map (fun kv => kv.1 +:+ "->" +:+ kv.2) pairs))
  = fold_left (fun d kv => dict_set (strip_by is_quote (strip kv.1))
                                    (strip_by is_quote (strip kv.2)) d) pairs [].
Proof.
  intros H. destruct pairs as [|kv0 pairs]; [reflexivity |].
  unfold parse_value_maps. rewrite split_join.
  - apply fold_add_value_map. eapply Forall_impl; [exact H |]. now intros kv (? & _).
  - apply Forall_map. eapply Forall_impl; [exact H |].
    intros kv (_ & ? & ?). now apply contains_comma_clause.
  - discriminate.
Qed.

Lemma process_transformations_plain src dest :
  contains "->" src = false -> contains "(MAP:" dest = false ->
  contains "," src = false -> contains "," dest = false ->
  process_transformations (VStr (src +:+ "->" +:+ dest))
  = Ok {[ strip src := {| dest_field := strip dest; value_maps := None |} ]}.
Proof.
  intros Hs Hd Hcs Hcd.
  rewrite process_transformations_no_comma;
    [| now apply contains_comma_clause | destruct src; discriminate].
  change (src +:+ "->" +:+ dest) with (src +:+ String "-" ("" +:+ String ">" dest)).
  rewrite strip_around by reflexivity.
  change (lstrip_by is_space src +:+ String "-" ("" +:+ String ">" (rstrip_by is_space dest)))
    with (lstrip_by is_space src +:+ "->" +:+ rstrip_by is_space dest).
  rewrite add_transform_plain
    by (now apply contains_lstrip_by || now apply contains_rstrip_by).
  unfold strip. rewrite strip_lstrip, strip_rstrip. now rewrite insert_empty.
Qed.

(** C4 (amended).  A clause [SRC->DEST] without a MAP part gives the entry
    for SRC trimmed with dest_field DEST trimmed and no value map, also
    when it is the whole transformations string.  A clause
    [SRC->DEST(MAP:BODY] handed to the per-clause step is split at its
    first [->] and once at [(MAP:]; one closing parenthesis at the end of
    the body is removed; every comma-separated [key->value] item of the body
    is split at its first [->], and each side is trimmed and then stripped
    of every leading and trailing quote character, single or double, before
    it goes into the value map, in the order of the items. *)
Theorem transform_clause_parse :
  (forall m src dest,
      contains "->" src = false -> contains "(MAP:" dest = false ->
      add_transform m (src +:+ "->" +:+ dest)
      = Ok (<[strip src := {| dest_field := strip dest; value_maps := None |}]> m))
  /\ (forall src dest,
        contains "->" src = false -> contains "(MAP:" dest = false ->
        contains "," src = false -> contains "," dest = false ->
        process_transformations (VStr (src +:+ "->" +:+ dest))
        = Ok {[ strip src := {| dest_field := strip dest; value_maps := None |} ]})
  /\ (forall m src dest body,
        contains "->" src = false -> contains "(MAP:" dest = false ->
        add_transform m (src +:+ "->" +:+ dest +:+ "(MAP:" +:+ body)
        = Ok (<[strip src :=
                  {| dest_field := strip dest;
                     value_maps :=
                       Some (parse_value_maps
                               (strip_closing_paren (rstrip_by is_space body))) |}]> m))
  /\ (forall s, strip_closing_paren (s +:+ ")") = strip s)
  /\ (forall s, endswith s ")" = false -> strip_closing_paren s = s)
  /\ (forall pairs : list (string * string),
        Forall (fun kv => contains "->" kv.1 = false
                          /\ contains "," kv.1 = false /\ contains "," kv.2 = false) pairs ->
        parse_value_maps (join "," (map (fun kv => kv.1 +:+ "->" +:+ kv.2) pairs))
        = fold_left (fun d kv => dict_set (strip_by is_quote (strip kv.1))
                                          (strip_by is_quote (strip kv.2)) d) pairs [])
  /\ (forall s,
        (exists l r, s = l +:+ strip_by is_quote s +:+ r
                     /\ all_chars is_quote l = true /\ all_chars is_quote r = true)
        /\ (forall c y, strip_by is_quote s = String c y -> is_quote c = false)
        /\ (forall x c, strip_by is_quote s = x +:+ String c "" -> is_quote c = false)).
Proof.
  split; [apply add_transform_plain |].
  split; [apply process_transformations_plain |].
  split; [apply add_transform_map |].
  split; [apply strip_closing_paren_closed |].
  split; [intros s H; unfold strip_closing_paren; now rewrite H |].
  split; [apply parse_value_maps_pairs |].
  apply strip_by_spec.
Qed.

Lemma transform_clause_parse_witness :
  (contains "->" " STATUS " = false /\ contains "(MAP:" "STATUS_CODE " = false)
  /\ add_transform ∅ (" STATUS " +:+ "->" +:+ "STATUS_CODE " +:+ "(MAP:" +:+ " 'A'->1)")
     = Ok {[ "STATUS" := {| dest_field := "STATUS_CODE";
                            value_maps := Some [("A", "1")] |} ]}.
Proof.
  split; [split; reflexivity |].
  rewrite (proj1 (proj2 (proj2 transform_clause_parse)) ∅ " STATUS " "STATUS_CODE " " 'A'->1)")
    by reflexivity.
  vm_compute. reflexivity.
Defined.

(** C4, as stated, fails on the quote characters: the two sides of a value
    pair lose every surrounding quote, not one layer, so a key written with
    two quotes on each side comes out bare, where taking one layer off
    would leave one quote on each side. *)
Lemma transform_clause_parse_counterexample :
  process_transformations (VStr "A->B(MAP: ''x''->'1')")
  = Ok {[ "A" := {| dest_field := "B"; value_maps := Some [("x", "1")] |} ]}
  /\ strip_one_quote_layer (strip " ''x''") = "'x'"
  /\ strip_by is_quote (strip " ''x''") = "x"
  /\ strip_by is_quote (strip " ''x''") <> strip_one_quote_layer (strip " ''x''").
Proof. repeat split; try (vm_compute; reflexivity). vm_compute. discriminate. Qed.

(** ** Generation of a batch *)

Section BatchFacts.

Implicit Types (item : gmap string PyVal) (script : Script) (ts : string).

Lemma normalize_total item :
  exists m, normalize item = Ok m
    /\ nm_source_table m = get item "source_table" "unknown_source"
    /\ nm_target_table m = get item "target_table" "unknown_target".
Proof.
  unfold normalize.
  destruct (process_transformations_total (get item "transformations" "")) as [tr ->].
  cbn [mbind result_bind mret result_ret]. eauto.
Qed.

Lemma build_script_str item t :
  get item "target_table" "unknown_target" = VStr t ->
  exists m, normalize item = Ok m
    /\ build_script item
       = Ok {| filename := ("migrt_" +:+ lower t) +:+ ".sql";
               code := script_code m ("migrt_" +:+ lower t);
               source_table := get item "source_table" "unknown_source";
               target_table := VStr t |}.
Proof.
  intros Ht. destruct (normalize_total item) as (m & Hm & Hs & Htt).
  exists m. split; [assumption |]. unfold build_script. rewrite Hm.
  cbn [mbind result_bind]. rewrite Htt, Ht. cbn [py_lower mret result_ret].
  now rewrite Hs.
Qed.

Lemma build_script_tables item script :
  build_script item = Ok script ->
  source_table script = get item "source_table" "unknown_source"
  /\ target_table script = get item "target_table" "unknown_target"
  /\ is_str (target_table script) = true.
Proof.
  unfold build_script. destruct (normalize_total item) as (m & -> & Hs & Ht).
  cbn [mbind result_bind]. rewrite Ht.
  destruct (get item "target_table" "unknown_target") as [t|b x];
    cbn [py_lower mret result_ret]; [| discriminate].
  intros [= <-]. cbn. rewrite Hs. auto.
Qed.

Lemma build_scripts_total (rows : list (gmap string PyVal)) :
  Forall str_tables rows ->
  exists scripts, build_scripts rows = Ok scripts
    /\ Forall2 (fun item script => build_script item = Ok script) rows scripts.
Proof.
  induction 1 as [|item rows [_ Ht] _ (scripts & IH & HF)]; [exists []; split; [reflexivity | constructor] |].
  destruct (get item "target_table" "unknown_target") as [t|] eqn:E; [| discriminate].
  destruct (build_script_str item t E) as (m & _ & Hb).
  eexists. cbn [build_scripts]. rewrite Hb, IH. cbn [mbind result_bind mret result_ret].
  split; [reflexivity |]. now constructor.
Qed.

Lemma call_blocks_str (i : nat) (todo scripts : list Script) :
  Forall (fun script => is_str (target_table script) = true) todo ->
  call_blocks i todo scripts
  = Ok (imap (fun j script =>
                call_text (i + j) (length scripts) (py_str (source_table script))
                  (py_str (target_table script)) (package_of script)) todo).
Proof.
  intros H. revert i. induction H as [|script todo Hs _ IH]; intros i; [reflexivity |].
  cbn [call_blocks]. unfold call_block at 1.
  destruct (target_table script) as [t|] eqn:E; [| discriminate].
  cbn [py_lower mbind result_bind mret result_ret py_str]. rewrite IH.
  cbn [mbind result_bind mret result_ret]. rewrite imap_cons, Nat.add_0_r.
  assert (package_of script = "migrt_" +:+ lower t) as ->
    by (unfold package_of; now rewrite E).
  f_equal. f_equal.
  - now rewrite E.
  - apply imap_ext. intros j x _. unfold compose. now rewrite Nat.add_succ_r.
Qed.

Lemma saved_filename_str ts script s t :
  source_table script = VStr s -> target_table script = VStr t ->
  saved_filename ts script = Ok (unit_filename ts s t).
Proof.
  intros Hs Ht. unfold saved_filename, unit_filename. rewrite Hs, Ht.
  cbn [val_eqb]. now destruct (String.eqb s "ALL" && String.eqb t "ALL").
Qed.

Lemma save_scripts_str ts (scripts : list Script) (fs : gmap string string) :
  Forall (fun script => is_str (source_table script) = true
                        /\ is_str (target_table script) = true) scripts ->
  (save_scripts ts scripts fs).2 = Ok (map (file_info_of ts) scripts).
Proof.
  intros H. revert fs. induction H as [|script scripts [Hs Ht] _ IH]; intros fs; [reflexivity |].
  cbn [save_scripts].
  destruct (source_table script) as [s|] eqn:Es; [| discriminate].
  destruct (target_table script) as [t|] eqn:Et; [| discriminate].
  rewrite (saved_filename_str ts script s t Es Et).
  specialize (IH (<[unit_filename ts s t := code script]> fs)).
  destruct (save_scripts ts scripts _) as [fs' r]. cbn [snd] in *. rewrite IH.
  cbn [fmap result_fmap map]. unfold file_info_of at 2. now rewrite Es, Et.
Qed.

Lemma generate_snd ts rows st scripts :
  all_scripts rows = Ok scripts ->
  (generate_fallback_code ts rows st).2 = (save_scripts ts scripts (files st)).2.
Proof.
  intros H. unfold generate_fallback_code. rewrite H.
  destruct (save_scripts ts scripts (files st)) as [fs [saved|e]]; reflexivity.
Qed.

End BatchFacts.

Section BatchTheorems.

Implicit Types (item : gmap string PyVal) (script : Script) (ts : string).

Lemma Forall2_map_eq {A B C : Type} (R : A -> B -> Prop) (f : A -> C) (g : B -> C)
    (l : list A) (k : list B) :
  (forall a b, R a b -> f a = g b) -> Forall2 R l k -> map f l = map g k.
Proof.
  intros HR. induction 1 as [|a b l k Hab _ IH]; [reflexivity |].
  cbn [map]. now rewrite (HR a b Hab), IH.
Qed.

Lemma generate_batch ts (rows : list (gmap string PyVal)) (st : Store) :
  Forall str_tables rows ->
  exists scripts main,
    build_scripts rows = Ok scripts
    /\ Forall2 (fun item script => build_script item = Ok script) rows scripts
    /\ main = {| filename := "migrate_all.sql";
                 code := main_script_code (controller_blocks scripts);
                 source_table := VStr "ALL";
                 target_table := VStr "ALL" |}
    /\ main_script scripts = Ok main
    /\ all_scripts rows = Ok (scripts ++ [main])
    /\ (generate_fallback_code ts rows st).2 = Ok (map (file_info_of ts) (scripts ++ [main])).
Proof.
  intros Hrows. destruct (build_scripts_total rows Hrows) as (scripts & Hb & HF).
  assert (Forall (fun script => is_str (source_table script) = true
                                /\ is_str (target_table script) = true) scripts) as Hstr.
  { clear Hb. induction HF as [|item script rows scripts Hi _ IH]; [constructor |].
    apply Forall_cons in Hrows as [[Hs Ht] Hrows].
    constructor; [| now apply IH].
    apply build_script_tables in Hi as (-> & -> & _). auto. }
  assert (main_script scripts
          = Ok {| filename := "migrate_all.sql";
                  code := main_script_code (controller_blocks scripts);
                  source_table := VStr "ALL";
                  target_table := VStr "ALL" |}) as Hmain.
  { unfold main_script. rewrite call_blocks_str; [reflexivity |].
    eapply Forall_impl; [exact Hstr |]. now intros script [_ ?]. }
  eexists scripts, _. split; [exact Hb |]. split; [exact HF |].
  split; [reflexivity |]. split; [exact Hmain |].
  assert (all_scripts rows = Ok (scripts ++ [ {| filename := "migrate_all.sql";
                  code := main_script_code (controller_blocks scripts);
                  source_table := VStr "ALL";
                  target_table := VStr "ALL" |} ])) as Hall.
  { unfold all_scripts. rewrite Hb. cbn [mbind result_bind]. now rewrite Hmain. }
  split; [exact Hall |].
  rewrite (generate_snd _ _ _ _ Hall). apply save_scripts_str.
  apply Forall_app. split; [exact Hstr |]. constructor; [| constructor]. split; reflexivity.
Qed.

Ltac norm_app :=
  unfold nl; repeat (progress (rewrite ?app_assoc, ?app_nil_r; cbn [String.append])).

Lemma print_call_items (i n : nat) (source target package_name : string) :
  cat (map print_item (call_items i n source target package_name))
  = call_text i n source target package_name.
Proof.
  unfold call_items, call_text.
  destruct (i <? n - 1);
    cbn [app map print_item print_stmt cat fold_right]; norm_app; reflexivity.
Qed.

Lemma print_call_blocks (i n : nat) (l : list Script) :
  cat (map print_item
         (concat (imap (fun j script =>
                          call_items (i + j) n (py_str (source_table script))
                            (py_str (target_table script)) (package_of script)) l)))
  = cat (imap (fun j script =>
                 call_text (i + j) n (py_str (source_table script))
                   (py_str (target_table script)) (package_of script)) l).
Proof.
  revert i. induction l as [|script l IH]; intros i; [reflexivity |].
  rewrite !imap_cons. cbn [concat]. rewrite map_app, cat_app, print_call_items.
  change (cat (?x :: ?r)) with (x +:+ cat r). f_equal.
  rewrite (imap_ext _ (fun j script =>
             call_items (S i + j) n (py_str (source_table script))
               (py_str (target_table script)) (package_of script)))
    by (intros j x _; unfold compose; now rewrite Nat.add_succ_r).
  rewrite IH. f_equal. apply imap_ext. intros j x _. unfold compose.
  now rewrite Nat.add_succ_r.
Qed.

Lemma print_controller_program (scripts : list Script) :
  print_controller (controller_program scripts)
  = main_script_code (controller_blocks scripts).
Proof.
  unfold print_controller, controller_program, main_script_code, controller_blocks.
  rewrite !map_app, !cat_app, (print_call_blocks 0).
  cbn [map print_item print_stmt cat fold_right]. norm_app. reflexivity.
Qed.

Lemma exec_items_app fails n (l1 l2 : list Item) out1 n1 :
  exec_items fails n l1 = (out1, n1, false) ->
  exec_items fails n (l1 ++ l2)
  = (let '(out2, n2, raised) := exec_items fails n1 l2 in (out1 ++ out2, n2, raised)).
Proof.
  revert n out1 n1. induction l1 as [|it l1 IH]; intros n out1 n1 H.
  - injection H as <- <-. cbn [app]. now destruct (exec_items fails n l2) as [[o k] r].
  - cbn [app exec_items] in *.
    destruct (exec_item fails n it) as [[o k] r]. destruct r; [discriminate |].
    destruct (exec_items fails k l1) as [[o' k'] r'] eqn:E.
    injection H as <- <- ->. rewrite (IH _ _ _ E).
    destruct (exec_items fails k' l2) as [[o2 k2] r2]. now rewrite <- List.app_assoc.
Qed.

Lemma exec_call_items fails k (i n : nat) (source target package_name : string) :
  exec_items fails k (call_items i n source target package_name)
  = (Called (package_name +:+ ".migrate_data")
     :: (if fails k
         then [Printed (cat ["'Error in "; package_name; ": ' || SQLERRM"])]
         else [])
     ++ [Printed "''"], S k, false).
Proof.
  unfold call_items.
  destruct (i <? n - 1);
    cbn [app exec_items exec_item exec_stmts exec_stmt];
    destruct (fails k); reflexivity.
Qed.

Lemma exec_call_blocks fails k (i n : nat) (l : list Script) :
  exec_items fails k
    (concat (imap (fun j script =>
                     call_items (i + j) n (py_str (source_table script))
                       (py_str (target_table script)) (package_of script)) l))
  = (concat (imap (fun j script =>
                     Called (package_of script +:+ ".migrate_data")
                     :: (if fails (k + j)
                         then [Printed (cat ["'Error in "; package_of script;
                                             ": ' || SQLERRM"])]
                         else [])
                     ++ [Printed "''"]) l),
     k + length l, false).
Proof.
  revert k i. induction l as [|script l IH]; intros k i.
  - cbn. now rewrite Nat.add_0_r.
  - rewrite !imap_cons. cbn [concat].
    rewrite (exec_items_app _ _ _ _ _ _ (exec_call_items _ _ _ _ _ _ _)).
    rewrite (imap_ext _ (fun j script =>
               call_items (S i + j) n (py_str (source_table script))
                 (py_str (target_table script)) (package_of script)))
      by (intros j x _; unfold compose; now rewrite Nat.add_succ_r).
    rewrite (IH (S k) (S i)). rewrite Nat.add_0_r. cbn [length].
    replace (k + S (length l)) with (S k + length l) by lia.
    do 4 f_equal. apply imap_ext. intros j x _. unfold compose.
    now rewrite Nat.add_succ_r.
Qed.

Lemma exec_controller_program fails (scripts : list Script) :
  exec_items fails 0 (controller_program scripts)
  = (controller_trace fails scripts, length scripts, false).
Proof.
  unfold controller_program, controller_trace.
  cbn [app exec_items exec_item exec_stmt].
  rewrite (exec_items_app _ _ _ _ _ _ (exec_call_blocks fails 0 0 (length scripts) scripts)).
  cbn [exec_items exec_item exec_stmt app]. reflexivity.
Qed.

Lemma called_app (l1 l2 : list Output) : called (l1 ++ l2) = called l1 ++ called l2.
Proof.
  induction l1 as [|[p|e] l1 IH]; [reflexivity | |]; cbn [app called]; now rewrite IH.
Qed.

Lemma called_call_blocks (f : nat -> bool) (l : list Script) :
  called (concat (imap (fun j script =>
                          Called (package_of script +:+ ".migrate_data")
                          :: (if f j
                              then [Printed (cat ["'Error in "; package_of script;
                                                  ": ' || SQLERRM"])]
                              else [])
                          ++ [Printed "''"]) l))
  = map (fun script => package_of script +:+ ".migrate_data") l.
Proof.
  revert f. induction l as [|script l IH]; intros f; [reflexivity |].
  rewrite imap_cons. cbn [concat map]. rewrite called_app.
  rewrite (imap_ext _ (fun j script =>
             Called (package_of script +:+ ".migrate_data")
             :: (if (f ∘ S) j
                 then [Printed (cat ["'Error in "; package_of script; ": ' || SQLERRM"])]
                 else [])
             ++ [Printed "''"])) by reflexivity.
  rewrite IH. now destruct (f 0).
Qed.

Lemma called_controller_trace fails (scripts : list Script) :
  called (controller_trace fails scripts)
  = map (fun script => package_of script +:+ ".migrate_data") scripts.
Proof.
  unfold controller_trace. rewrite !called_app, called_call_blocks.
  cbn [called app]. now rewrite List.app_nil_r.
Qed.

Lemma reported_controller_trace fails (scripts : list Script) i script :
  scripts !! i = Some script -> fails i = true ->
  In (Printed (cat ["'Error in "; package_of script; ": ' || SQLERRM"]))
     (controller_trace fails scripts).
Proof.
  intros Hi Hf. unfold controller_trace.
  apply in_or_app. right. apply in_or_app. left.
  apply in_concat. eexists. split.
  - apply list_elem_of_In. apply (elem_of_lookup_imap_2 _ _ _ _ Hi).
  - cbn beta. rewrite Hf. right. left. reflexivity.
Qed.

Lemma script_code_package (m : NormalizedMapping) (package_name : string) :
  occurs_in (cat ["CREATE OR REPLACE PACKAGE BODY "; package_name; " AS"; nl])
            (script_code m package_name)
  /\ occurs_in (cat ["  PROCEDURE migrate_data IS"; nl]) (script_code m package_name).
Proof.
  split.
  - exists (cat (take 24 (script_parts m package_name))),
           (cat (List.skipn 28 (script_parts m package_name))).
    unfold script_code. rewrite <- !cat_app. reflexivity.
  - exists (cat (take 38 (script_parts m package_name))),
           (cat (List.skipn 40 (script_parts m package_name))).
    unfold script_code. rewrite <- !cat_app. reflexivity.
Qed.

Lemma main_script_code_block (blocks : list string) i block :
  blocks !! i = Some block -> occurs_in block (main_script_code blocks).
Proof.
  intros H. apply occurs_in_trans with (cat blocks).
  - apply occurs_in_cat, list_elem_of_In, list_elem_of_lookup. now exists i.
  - apply occurs_in_cat. unfold main_script_code.
    repeat (first [left; reflexivity | right]).
Qed.

Lemma call_text_block (i n : nat) (source target package_name : string) :
  occurs_in (cat ["  BEGIN"; nl;
                  "    "; package_name; ".migrate_data;"; nl;
                  "    DBMS_OUTPUT.PUT_LINE('');"; nl;
                  "  EXCEPTION"; nl;
                  "    WHEN OTHERS THEN"; nl;
                  "      DBMS_OUTPUT.PUT_LINE('Error in "; package_name; ": ' || SQLERRM);"; nl;
                  "      DBMS_OUTPUT.PUT_LINE('');"; nl;
                  "  END;"; nl])
            (call_text i n source target package_name).
Proof.
  exists (cat ["  -- Migration "; pretty (i + 1); ": "; source; " to "; target; nl]),
         (if i <? n - 1 then nl else "").
  unfold call_text. destruct (i <? n - 1);
    cbn [cat fold_right]; norm_app; reflexivity.
Qed.

(** C8.  A batch of N rows whose table names are strings gives N+1 units:
    first one unit per row, in the order of the rows, then one controller
    unit with source_table and target_table ALL.  Each unit of a row creates
    the package [migrt_<target>] with the procedure [migrate_data].  The
    controller's code is the text of a program that calls, in the order of
    the units, [migrate_data] of the package of each unit inside a block of
    its own, whose handler for [OTHERS] prints the error and does not raise
    it again.  Whichever calls fail, the run of that program calls every
    package in order, prints the error of each failing one, and ends
    normally. *)
Theorem batch_units ts (rows : list (gmap string PyVal)) (st : Store)
    (Hrows : Forall str_tables rows) :
  exists scripts main units,
    build_scripts rows = Ok scripts
    /\ Forall2 (fun item script =>
                  build_script item = Ok script
                  /\ filename script = package_of script +:+ ".sql"
                  /\ occurs_in (cat ["CREATE OR REPLACE PACKAGE BODY "; package_of script;
                                     " AS"; nl])
                               (code script)
                  /\ occurs_in (cat ["  PROCEDURE migrate_data IS"; nl]) (code script)
                  /\ exists m, normalize item = Ok m
                       /\ code script = script_code m (package_of script))
               rows scripts
    /\ all_scripts rows = Ok (scripts ++ [main])
    /\ source_table main = VStr "ALL" /\ target_table main = VStr "ALL"
    /\ code main = print_controller (controller_program scripts)
    /\ (forall i script, scripts !! i = Some script ->
          occurs_in
            (cat ["  BEGIN"; nl;
                  "    "; package_of script; ".migrate_data;"; nl;
                  "    DBMS_OUTPUT.PUT_LINE('');"; nl;
                  "  EXCEPTION"; nl;
                  "    WHEN OTHERS THEN"; nl;
                  "      DBMS_OUTPUT.PUT_LINE('Error in "; package_of script;
                  ": ' || SQLERRM);"; nl;
                  "      DBMS_OUTPUT.PUT_LINE('');"; nl;
                  "  END;"; nl])
            (code main))
    /\ (generate_fallback_code ts rows st).2 = Ok units
    /\ length units = length rows + 1
    /\ map fi_source_table units = map source_table scripts ++ [VStr "ALL"]
    /\ map fi_target_table units = map target_table scripts ++ [VStr "ALL"]
    /\ (forall fails,
          exec_items fails 0 (controller_program scripts)
          = (controller_trace fails scripts, length scripts, false)
          /\ called (controller_trace fails scripts)
             = map (fun script => package_of script +:+ ".migrate_data") scripts
          /\ (forall i script, scripts !! i = Some script -> fails i = true ->
                In (Printed (cat ["'Error in "; package_of script; ": ' || SQLERRM"]))
                   (controller_trace fails scripts))).
Proof.
  destruct (generate_batch ts rows st Hrows) as (scripts & main & Hb & HF & Hm & _ & Hall & Hgen).
  exists scripts, main, (map (file_info_of ts) (scripts ++ [main])).
  split; [exact Hb |]. split.
  { clear Hb Hall Hgen Hm. induction HF as [|item script rows scripts Hi _ IH]; [constructor |].
    apply Forall_cons in Hrows as [[Hs Ht] Hrows]. constructor; [| now apply IH].
    split; [exact Hi |].
    destruct (get item "target_table" "unknown_target") as [t|] eqn:E; [| discriminate].
    destruct (build_script_str item t E) as (m & Hn & Hbs).
    rewrite Hbs in Hi. injection Hi as <-. unfold package_of.
    cbn [filename code target_table py_str].
    split; [reflexivity |].
    split; [exact (proj1 (script_code_package m ("migrt_" +:+ lower t))) |].
    split; [exact (proj2 (script_code_package m ("migrt_" +:+ lower t))) |].
    now exists m. }
  split; [exact Hall |]. subst main. cbn [source_table target_table code].
  split; [reflexivity |]. split; [reflexivity |].
  split; [symmetry; apply print_controller_program |].
  split.
  { intros i script Hi.
    eapply occurs_in_trans; [apply call_text_block |].
    apply (main_script_code_block _ i). unfold controller_blocks.
    rewrite list_lookup_imap, Hi. reflexivity. }
  split; [exact Hgen |]. split.
  { rewrite length_map, length_app. cbn [length]. now rewrite (Forall2_length _ _ _ HF). }
  split; [now rewrite map_map, map_app |]. split; [now rewrite map_map, map_app |].
  intros fails. split; [apply exec_controller_program |].
  split; [apply called_controller_trace | apply reported_controller_trace].
Qed.

Lemma batch_units_witness :
  Forall str_tables
    [row_of "ORDERS_OLD" "ORDERS_NEW" "ORDER_ID" "ID" "ORDER_ID->ID" "" "";
     row_of "ITEMS_OLD" "ITEMS_NEW" "" "" "" "" ""]
  /\ exists units,
       (generate_fallback_code "20250101_120000"
          [row_of "ORDERS_OLD" "ORDERS_NEW" "ORDER_ID" "ID" "ORDER_ID->ID" "" "";
           row_of "ITEMS_OLD" "ITEMS_NEW" "" "" "" "" ""]
          {| files := ∅; index := [] |}).2
       = Ok units
       /\ length units = 3.
Proof.
  assert (Forall str_tables
            [row_of "ORDERS_OLD" "ORDERS_NEW" "ORDER_ID" "ID" "ORDER_ID->ID" "" "";
             row_of "ITEMS_OLD" "ITEMS_NEW" "" "" "" "" ""]) as H
    by (repeat constructor).
  split; [exact H |].
  destruct (batch_units "20250101_120000" _ {| files := ∅; index := [] |} H)
    as (scripts & main & units & _ & _ & _ & _ & _ & _ & _ & Hg & Hl & _).
  exists units. split; [exact Hg | exact Hl].
Defined.

Lemma sub_nonword_word s : all_chars is_word (sub_nonword s) = true.
Proof.
  induction s as [|c s IH]; [reflexivity |].
  unfold sub_nonword in *. cbn [map_chars all_chars]. rewrite IH, andb_true_r.
  destruct (is_word c) eqn:E; [assumption | reflexivity].
Qed.

Lemma sub_nonword_length s : String.length (sub_nonword s) = String.length s.
Proof.
  induction s as [|c s IH]; [reflexivity |].
  unfold sub_nonword in *. cbn [map_chars String.length]. now rewrite IH.
Qed.

Lemma sub_nonword_id s : all_chars is_word s = true -> sub_nonword s = s.
Proof.
  induction s as [|c s IH]; [reflexivity |].
  cbn [all_chars]. intros H. apply andb_true_iff in H as [Hc Hs].
  unfold sub_nonword in *. cbn [map_chars]. now rewrite Hc, IH.
Qed.

Lemma sub_nonword_get s i :
  String.get i (sub_nonword s)
  = (fun c => if is_word c then c else "_"%char) <$> String.get i s.
Proof.
  revert i. induction s as [|c s IH]; intros i; [reflexivity |].
  unfold sub_nonword in *. cbn [map_chars String.get].
  destruct i as [|i]; [reflexivity | apply IH].
Qed.

Lemma mapping_name_not_controller ts a b :
  cat [ts; "_"; a; "_to_"; b; ".sql"] <> cat [ts; "_migrate_all.sql"].
Proof.
  unfold cat. cbn [fold_right]. intros H. apply app_inv_head in H.
  change ("_" +:+ a +:+ "_to_" +:+ b +:+ ".sql" +:+ "")
    with (String "_" (a +:+ "_to_" +:+ b +:+ ".sql" +:+ "")) in H.
  change ("_migrate_all.sql" +:+ "") with (String "_" "migrate_all.sql") in H.
  injection H as H.
  assert (contains "_to_" "migrate_all.sql" = true) as Hc
    by (rewrite <- H; exact (contains_intro "_to_" a (b +:+ ".sql"))).
  vm_compute in Hc. discriminate.
Qed.

(** C3 (amended).  A unit whose table names are strings is written to
    [<timestamp>_<source>_to_<target>.sql], the two names with every
    character outside letters, digits and underscore replaced by an
    underscore, unless both names are ALL, when the file is
    [<timestamp>_migrate_all.sql], the name of the controller; a name of the
    first form is never the name of the controller.  The file names of a
    batch are those of its rows in order, then that of the controller; two
    rows whose sanitized names agree get the same file name. *)
Theorem unit_filenames :
  (forall ts script s t,
      source_table script = VStr s -> target_table script = VStr t ->
      saved_filename ts script
      = Ok (if String.eqb s "ALL" && String.eqb t "ALL"
            then cat [ts; "_migrate_all.sql"]
            else cat [ts; "_"; sub_nonword s; "_to_"; sub_nonword t; ".sql"]))
  /\ (forall s,
        all_chars is_word (sub_nonword s) = true
        /\ (forall i, String.get i (sub_nonword s)
                      = (fun c => if is_word c then c else "_"%char) <$> String.get i s)
        /\ (all_chars is_word s = true -> sub_nonword s = s))
  /\ (forall ts s t,
        cat [ts; "_"; sub_nonword s; "_to_"; sub_nonword t; ".sql"]
        <> cat [ts; "_migrate_all.sql"])
  /\ (forall ts (rows : list (gmap string PyVal)) st,
        Forall str_tables rows ->
        exists units,
          (generate_fallback_code ts rows st).2 = Ok units
          /\ map fi_filename units
             = map (fun item =>
                      unit_filename ts
                        (py_str (get item "source_table" "unknown_source"))
                        (py_str (get item "target_table" "unknown_target"))) rows
               ++ [cat [ts; "_migrate_all.sql"]])
  /\ (forall ts s1 t1 s2 t2,
        sub_nonword s1 = sub_nonword s2 -> sub_nonword t1 = sub_nonword t2 ->
        cat [ts; "_"; sub_nonword s1; "_to_"; sub_nonword t1; ".sql"]
        = cat [ts; "_"; sub_nonword s2; "_to_"; sub_nonword t2; ".sql"]).
Proof.
  split; [intros ts script s t Hs Ht; now apply saved_filename_str |].
  split.
  { intros s. split; [apply sub_nonword_word |].
    split; [apply sub_nonword_get | apply sub_nonword_id]. }
  split; [intros; apply mapping_name_not_controller |].
  split; [| now intros ts s1 t1 s2 t2 -> ->].
  intros ts rows st Hrows.
  destruct (generate_batch ts rows st Hrows) as (scripts & main & _ & HF & Hm & _ & _ & Hgen).
  eexists. split; [exact Hgen |].
  rewrite map_map, map_app. subst main. cbn [map]. f_equal. symmetry.
  eapply Forall2_map_eq; [| exact HF].
  intros item script H. apply build_script_tables in H as (Hs & Ht & _).
  unfold file_info_of. cbn [fi_filename]. now rewrite Hs, Ht.
Qed.

Lemma unit_filenames_witness :
  Forall str_tables [row_of "A-B" "T 1" "" "" "" "" ""]
  /\ exists units,
       (generate_fallback_code "20250101_120000" [row_of "A-B" "T 1" "" "" "" "" ""]
          {| files := ∅; index := [] |}).2 = Ok units
       /\ map fi_filename units
          = ["20250101_120000_A_B_to_T_1.sql"; "20250101_120000_migrate_all.sql"].
Proof.
  assert (Forall str_tables [row_of "A-B" "T 1" "" "" "" "" ""]) as H
    by (repeat constructor).
  split; [exact H |].
  destruct (proj1 (proj2 (proj2 (proj2 unit_filenames))) "20250101_120000"
              [row_of "A-B" "T 1" "" "" "" "" ""] {| files := ∅; index := [] |} H)
    as (units & Hg & Hn).
  exists units. split; [exact Hg |]. rewrite Hn. reflexivity.
Defined.

(** C3, as stated, fails: two rows whose source names differ only in a
    character that is replaced get the same file name, so the second unit is
    written over the first and two files are left for three units. *)
Lemma unit_filenames_counterexample :
  exists units,
    (generate_fallback_code "20250101_120000"
       [row_of "A-B" "T" "" "" "" "" ""; row_of "A B" "T" "" "" "" "" ""]
       {| files := ∅; index := [] |}).2 = Ok units
    /\ map fi_filename units
       = ["20250101_120000_A_B_to_T.sql"; "20250101_120000_A_B_to_T.sql";
          "20250101_120000_migrate_all.sql"]
    /\ ~ NoDup (map fi_filename units)
    /\ size (files (generate_fallback_code "20250101_120000"
                      [row_of "A-B" "T" "" "" "" "" ""; row_of "A B" "T" "" "" "" "" ""]
                      {| files := ∅; index := [] |}).1) = 2.
Proof.
  eexists. split; [vm_compute; reflexivity |].
  split; [reflexivity |]. split; [| vm_compute; reflexivity].
  cbn [map fi_filename]. intros H. apply NoDup_cons in H as [H _].
  apply H. left.
Qed.

(** C2 (amended).  A table name that is absent from the row is replaced by
    the placeholder ([unknown_source], [unknown_target]); a table name that
    is present is used as it is given, an empty or blank string included:
    there is no trimming and no replacement.  Generation never raises an
    error for a row whose table names are strings or absent: its script is
    built, its file name is computed, and in every batch of such rows the
    row's unit is among the units returned. *)
Theorem table_name_placeholders item (H : str_tables item) :
  exists script,
    build_script item = Ok script
    /\ (item !! "source_table" = None -> source_table script = VStr "unknown_source")
    /\ (item !! "target_table" = None -> target_table script = VStr "unknown_target")
    /\ (forall v, item !! "source_table" = Some v -> source_table script = v)
    /\ (forall v, item !! "target_table" = Some v -> target_table script = v)
    /\ (forall ts,
          saved_filename ts script
          = Ok (unit_filename ts (py_str (source_table script))
                  (py_str (target_table script))))
    /\ (forall ts st (rows1 rows2 : list (gmap string PyVal)),
          Forall str_tables rows1 -> Forall str_tables rows2 ->
          exists units,
            (generate_fallback_code ts (rows1 ++ item :: rows2) st).2 = Ok units
            /\ length units = length rows1 + length rows2 + 2
            /\ units !! length rows1 = Some (file_info_of ts script)).
Proof.
  destruct H as [Hs Ht].
  destruct (get item "target_table" "unknown_target") as [t|] eqn:E; [| discriminate].
  destruct (get item "source_table" "unknown_source") as [s|] eqn:Es; [| discriminate].
  destruct (build_script_str item t E) as (m & _ & Hb). rewrite Es in Hb.
  eexists. split; [exact Hb |]. cbn [source_table target_table py_str].
  unfold get in *.
  split; [intros H; now rewrite H in Es |]. split; [intros H; now rewrite H in E |].
  split; [intros v H; now rewrite H in Es |]. split; [intros v H; now rewrite H in E |].
  split; [intros ts; now apply saved_filename_str |].
  intros ts st rows1 rows2 H1 H2.
  assert (Forall str_tables (rows1 ++ item :: rows2)) as Hrows.
  { apply Forall_app. split; [assumption |]. constructor; [| assumption].
    split; unfold get; [now rewrite Es | now rewrite E]. }
  destruct (generate_batch ts _ st Hrows) as (scripts & main & _ & HF & _ & _ & _ & Hgen).
  eexists. split; [exact Hgen |].
  apply Forall2_app_inv_l in HF as (s1 & s2 & HF1 & HF2 & ->).
  apply Forall2_cons_inv_l in HF2 as (script & s2' & Hi & HF2 & ->).
  rewrite Hb in Hi. injection Hi as <-.
  apply Forall2_length in HF1, HF2. split.
  - rewrite length_map, !length_app. cbn [length]. lia.
  - rewrite list_lookup_fmap, <- List.app_assoc, lookup_app_r by lia.
    rewrite HF1, Nat.sub_diag. reflexivity.
Qed.

Lemma table_name_placeholders_witness :
  str_tables (row_of "  " "" "" "" "" "" "")
  /\ exists script,
       build_script (row_of "  " "" "" "" "" "" "") = Ok script
       /\ source_table script = VStr "  " /\ target_table script = VStr ""
       /\ saved_filename "20250101_120000" script = Ok "20250101_120000____to_.sql".
Proof.
  assert (str_tables (row_of "  " "" "" "" "" "" "")) as H by (split; reflexivity).
  split; [exact H |].
  destruct (table_name_placeholders (row_of "  " "" "" "" "" "" "") H)
    as (script & Hb & _ & _ & Hs & Ht & Hn & _).
  exists script. split; [exact Hb |].
  assert (source_table script = VStr "  ") as Es by (apply Hs; reflexivity).
  assert (target_table script = VStr "") as Et by (apply Ht; reflexivity).
  split; [exact Es |]. split; [exact Et |].
  rewrite Hn, Es, Et. reflexivity.
Defined.

(** C2, as stated, fails: a row whose source table is blank and whose
    target table is empty keeps both as they are; no placeholder is put in
    their place and the package is named [migrt_]. *)
Lemma table_name_placeholders_counterexample :
  exists script,
    build_script (row_of "  " "" "A" "B" "" "" "") = Ok script
    /\ source_table script = VStr "  "
    /\ target_table script = VStr ""
    /\ filename script = "migrt_.sql"
    /\ source_table script <> VStr "unknown_source"
    /\ target_table script <> VStr "unknown_target".
Proof.
  eexists. split; [vm_compute; reflexivity |].
  cbn [source_table target_table filename]. repeat split; discriminate.
Qed.

(** ** A directive with a blank table part, down to the script *)

Lemma normalize_related_inserts item m :
  normalize item = Ok m ->
  nm_related_inserts m = process_related_inserts (get item "related_inserts" "").
Proof.
  unfold normalize.
  destruct (process_transformations_total (get item "transformations" "")) as [tr ->].
  cbn [mbind result_bind mret result_ret]. now intros [= <-].
Qed.

Lemma related_inserts_code_block (related_inserts : list RelatedInsert) ri :
  In ri related_inserts ->
  occurs_in (related_insert_block ri) (related_inserts_code related_inserts).
Proof.
  intros H. apply occurs_in_trans with (cat (map related_insert_block related_inserts)).
  - apply occurs_in_cat, in_map, H.
  - destruct related_inserts as [|r l]; [destruct H |].
    apply occurs_in_cat. cbn [related_inserts_code].
    repeat (first [left; reflexivity | right]).
Qed.

Lemma script_code_related_inserts (m : NormalizedMapping) (package_name : string) :
  occurs_in (related_inserts_code (nm_related_inserts m)) (script_code m package_name).
Proof.
  apply occurs_in_cat. unfold script_parts. do 88 right. left. reflexivity.
Qed.

Lemma related_insert_block_merge (t k v : string) :
  occurs_in (cat ["          MERGE INTO "; t; " t"; nl;
                  "          USING (SELECT v_source_data(i)."; k; " as key_val, "; nl;
                  "                       v_source_data(i)."; v; " as value_val "; nl])
            (related_insert_block (Key t k v)).
Proof.
  exists (cat ["        -- Insert/update record in "; t; " lookup table"; nl;
               "        BEGIN"; nl]),
         (cat ["                 FROM dual) s"; nl;
               "          ON (t.migrt_key = s.key_val)"; nl;
               "          WHEN MATCHED THEN"; nl;
               "            UPDATE SET t.migrt_value = s.value_val"; nl;
               "          WHEN NOT MATCHED THEN"; nl;
               "            INSERT (migrt_key, migrt_value)"; nl;
               "            VALUES (s.key_val, s.value_val);"; nl;
               "          "; nl;
               "          DBMS_OUTPUT.PUT_LINE('Processed lookup record for key: ' || v_source_data(i)."; k; ");"; nl;
               "        EXCEPTION"; nl;
               "          WHEN OTHERS THEN"; nl;
               "            v_error_message := SQLERRM;"; nl;
               "            DBMS_OUTPUT.PUT_LINE('Error during related insert to "; t; ": ' || v_error_message);"; nl;
               "            -- Continue with the migration process"; nl;
               "        END;"; nl]).
  cbn [related_insert_block cat fold_right]. norm_app. reflexivity.
Qed.

Lemma script_code_merge (m : NormalizedMapping) (package_name t k v : string) :
  In (Key t k v) (nm_related_inserts m) ->
  occurs_in (cat ["          MERGE INTO "; t; " t"; nl;
                  "          USING (SELECT v_source_data(i)."; k; " as key_val, "; nl;
                  "                       v_source_data(i)."; v; " as value_val "; nl])
            (script_code m package_name).
Proof.
  intros H.
  eapply occurs_in_trans; [apply related_insert_block_merge |].
  eapply occurs_in_trans; [apply related_inserts_code_block, H |].
  apply script_code_related_inserts.
Qed.

(** C10.  A directive whose table part is blank is kept all the same, with
    an empty target_table: whether a directive is kept does not depend on
    the text between [KEY:] and the first ['('], only on the two columns;
    [KEY:(ID):NAME] gives the directive with target_table empty.  The script
    generated for a row with such a directive contains the MERGE statement
    written for it, and that statement names no table: [MERGE INTO  t]. *)
Theorem empty_target_table_retained :
  process_related_inserts (VStr "KEY:(ID):NAME") = [Key "" "ID" "NAME"]
  /\ (forall t r, contains "(" t = false ->
        parse_instruction ("KEY:" +:+ t +:+ "(" +:+ r)
        = (fun ri => match ri with Key _ k v => Key (strip t) k v end)
            <$> parse_instruction ("KEY:(" +:+ r))
  /\ (forall t k rest,
        contains "(" t = false -> strip t = "" ->
        k <> "" -> contains ")" k = false ->
        strip k <> "" -> value_column_of rest <> "" ->
        parse_instruction ("KEY:" +:+ t +:+ "(" +:+ k +:+ ")" +:+ rest)
        = Some (Key "" (strip k) (value_column_of rest)))
  /\ (forall k v,
        occurs_in (cat ["          MERGE INTO "; ""; " t"; nl])
                  (related_insert_block (Key "" k v)))
  /\ (forall instr ri, parse_instruction instr = Some ri ->
        exists t k v, ri = Key t k v /\ k <> "" /\ v <> "")
  /\ (forall item k v,
        is_str (get item "target_table" "unknown_target") = true ->
        In (Key "" k v) (process_related_inserts (get item "related_inserts" "")) ->
        exists script,
          build_script item = Ok script
          /\ occurs_in
               (cat ["          MERGE INTO "; ""; " t"; nl;
                     "          USING (SELECT v_source_data(i)."; k; " as key_val, "; nl;
                     "                       v_source_data(i)."; v; " as value_val "; nl])
               (code script))
  /\ exists script,
       build_script (row_of "SRC" "TGT" "ID,NAME" "ID,NAME" "" "" "KEY:(ID):NAME")
       = Ok script
       /\ occurs_in
            (cat ["      FOR i IN 1..v_source_data.COUNT LOOP"; nl;
                  "        -- Insert/update record in  lookup table"; nl;
                  "        BEGIN"; nl;
                  "          MERGE INTO  t"; nl;
                  "          USING (SELECT v_source_data(i).ID as key_val, "; nl;
                  "                       v_source_data(i).NAME as value_val "; nl;
                  "                 FROM dual) s"; nl])
            (code script).
Proof.
  split; [reflexivity |]. split; [| split; [| split; [| split; [| split]]]].
  - intros t r Ht.
    rewrite parse_instruction_KEY by assumption.
    change ("KEY:(" +:+ r) with ("KEY:" +:+ "" +:+ "(" +:+ r).
    rewrite parse_instruction_KEY by reflexivity.
    apply parse_key_value_target.
  - intros t k rest Ht Ht' Hk Hc Hk' Hv.
    rewrite parse_instruction_form by assumption. rewrite Ht'.
    destruct (String.eqb_spec (strip k) ""); [contradiction |].
    destruct (String.eqb_spec (value_column_of rest) ""); [contradiction |].
    reflexivity.
  - intros k v.
    exists (cat ["        -- Insert/update record in "; ""; " lookup table"; nl;
                 "        BEGIN"; nl]).
    eexists. cbn [related_insert_block]. unfold cat. cbn [fold_right String.append].
    reflexivity.
  - apply parse_instruction_retained.
  - intros item k v Ht Hin.
    destruct (get item "target_table" "unknown_target") as [t|] eqn:E; [| discriminate].
    destruct (build_script_str item t E) as (m & Hn & Hb).
    eexists. split; [exact Hb |]. cbn [code].
    apply script_code_merge. now rewrite (normalize_related_inserts item m Hn).
  - eexists. split; [vm_compute; reflexivity |].
    apply contains_spec. vm_compute. reflexivity.
Qed.

Lemma empty_target_table_retained_witness :
  (contains "(" "  " = false /\ strip "  " = "" /\ "ID" <> "" /\ contains ")" "ID" = false
   /\ strip "ID" <> "" /\ value_column_of ":NAME" <> "")
  /\ parse_instruction ("KEY:" +:+ "  " +:+ "(" +:+ "ID" +:+ ")" +:+ ":NAME")
     = Some (Key "" "ID" "NAME").
Proof.
  split; [repeat split; (reflexivity || discriminate) |].
  rewrite (proj1 (proj2 (proj2 empty_target_table_retained)) "  " "ID" ":NAME");
    (reflexivity || discriminate).
Defined.

End BatchTheorems.

(** The clause splitter on the value map of the sample mapping file: the
    opening parenthesis comes before [MAP:] has been read, so the depth is
    never raised, the comma inside the map ends the clause, and the second
    pair becomes a transform of its own. *)
Example split_transformations_inside_map :
  split_transformations "A->B(MAP: 'x'->'1','y'->'2')"
  = ["A->B(MAP: 'x'->'1'"; "'y'->'2')"]
  /\ process_transformations (VStr "A->B(MAP: 'x'->'1','y'->'2')")
     = Ok (<["'y'" := {| dest_field := "'2')"; value_maps := None |}]>
             (<["A" := {| dest_field := "B"; value_maps := Some [("x", "1")] |}]> ∅)).
Proof. split; vm_compute; reflexivity. Qed.

(** * Further properties of [app.py] *)

(** ** The clause splitter *)

Section SplitterFacts.

Implicit Types (s temp pre : string) (acc : list string).

Lemma fold_split_step_depth0 s acc temp pre :
  no_paren_after_map (pre +:+ temp) s = true ->
  fold_chars split_step (acc, temp, 0) s
  = (acc ++ map strip (removelast (prepend temp (split "," s))),
     List.last (prepend temp (split "," s)) "", 0).
Proof.
  revert acc temp pre. induction s as [|c s IH]; intros acc temp pre H.
  - cbn [fold_chars split prepend removelast List.last map].
    now rewrite app_nil_r, List.app_nil_r.
  - cbn [no_paren_after_map] in H. apply andb_true_iff in H as [H1 H2].
    cbn [fold_chars]. unfold split_step at 2.
    assert ((Ascii.eqb c "(" && contains "MAP:" temp) = false) as ->.
    { destruct (Ascii.eqb c "("); [| reflexivity]. cbn [negb orb andb] in *.
      destruct (contains "MAP:" temp) eqn:E; [| reflexivity].
      now rewrite (contains_app_r "MAP:" pre temp E) in H1. }
    rewrite andb_false_r. cbn [split].
    destruct (Ascii.eqb_spec c ",") as [-> | Hc].
    + cbn [andb Nat.eqb].
      rewrite (IH _ "" (pre +:+ temp +:+ ",")) by (now rewrite app_nil_r, <- app_assoc).
      destruct (split "," s) as [|h t] eqn:E; [now apply split_not_nil in E |].
      cbn [prepend]. change ("" +:+ h) with h. rewrite app_nil_r.
      cbn [removelast List.last map]. now rewrite <- List.app_assoc.
    + cbn [andb]. rewrite (IH _ _ pre) by (now rewrite <- app_assoc).
      destruct (split "," s) as [|h t] eqn:E; [now apply split_not_nil in E |].
      cbn [prepend]. now rewrite app_assoc.
Qed.

(** X1.  As long as no opening parenthesis comes after an occurrence of
    [MAP:] in the string, the nesting counter stays at zero and the clauses
    are the pieces between the commas, trimmed, without a last piece that is
    empty; the commas inside a value map written [DEST(MAP: ...)] therefore
    end the clause like any other comma. *)
Theorem split_transformations_commas s
    (H : no_paren_after_map "" s = true) :
  split_transformations s = comma_clauses s.
Proof.
  unfold split_transformations, comma_clauses.
  rewrite (fold_split_step_depth0 s [] "" "") by exact H.
  destruct (split "," s) as [|h t] eqn:E; [now apply split_not_nil in E |].
  cbn [prepend]. change ("" +:+ h) with h. cbn [app].
  destruct (String.eqb_spec (List.last (h :: t) "") "") as [E0 | E0]; [reflexivity |].
  rewrite <- (map_last strip).
  now rewrite <- (app_removelast_last (l := h :: t) "") by discriminate.
Qed.

Lemma split_transformations_commas_witness :
  no_paren_after_map "" "S->C (MAP: 'A'->1,'I'->0),X->Y" = true
  /\ split_transformations "S->C (MAP: 'A'->1,'I'->0),X->Y"
     = ["S->C (MAP: 'A'->1"; "'I'->0)"; "X->Y"].
Proof.
  split; [reflexivity |].
  rewrite (split_transformations_commas "S->C (MAP: 'A'->1,'I'->0),X->Y" eq_refl).
  reflexivity.
Defined.

End SplitterFacts.

(** ** The mappings and the value maps *)

Section MappingFacts.

Implicit Types (m : gmap string ColumnTransform) (c : string)
  (d : list (string * string)).

Lemma add_transform_shape m c m' :
  add_transform m c = Ok m' ->
  m' = m
  \/ exists l r vm, m' = <[strip l := {| dest_field := strip r; value_maps := vm |}]> m.
Proof.
  unfold add_transform. destruct (contains "->" c); [| intros [= <-]; now left].
  destruct (split1 "->" c) as [|l [|r [|? ?]]]; try (intros [= <-]; now left).
  destruct (contains "(MAP:" (strip r)).
  - destruct (split1 "(MAP:" (strip r)) as [|x [|y [|? ?]]]; try discriminate.
    intros [= <-]. right. eauto.
  - intros [= <-]. right. now exists l, r, None.
Qed.

Lemma add_transform_trimmed m c m' :
  trimmed_mappings m -> add_transform m c = Ok m' -> trimmed_mappings m'.
Proof.
  intros Hm H. apply add_transform_shape in H as [-> | (l & r & vm & ->)]; [assumption |].
  intros k t. rewrite lookup_insert. case_decide as E.
  - intros [= <-]. subst k. cbn [dest_field]. unfold strip. now rewrite !strip_idem.
  - apply Hm.
Qed.

Lemma add_transforms_trimmed (l : list string) m m' :
  trimmed_mappings m -> add_transforms m l = Ok m' -> trimmed_mappings m'.
Proof.
  revert m. induction l as [|c l IH]; intros m Hm; cbn [add_transforms].
  - now intros [= <-].
  - destruct (add_transform m c) as [m1|] eqn:E; [| discriminate].
    apply IH. eapply add_transform_trimmed; eassumption.
Qed.

(** X2.  Whatever the transformations string, every source field of the
    mappings it gives is trimmed, and so is every destination field: a
    column name that has been trimmed finds its transform, and a target
    column taken from a transform needs no further trimming. *)
Theorem process_transformations_trimmed (v : PyVal) m k t
    (Hm : process_transformations v = Ok m) (Hk : m !! k = Some t) :
  strip k = k /\ strip (dest_field t) = dest_field t.
Proof.
  assert (trimmed_mappings m) as H; [| exact (H k t Hk)].
  destruct v as [s|b x]; cbn [process_transformations] in Hm.
  - destruct (String.eqb s "").
    + injection Hm as <-. intros k' t'. now rewrite lookup_empty.
    + eapply add_transforms_trimmed; [| exact Hm]. intros k' t'. now rewrite lookup_empty.
  - injection Hm as <-. intros k' t'. now rewrite lookup_empty.
Qed.

Lemma process_transformations_trimmed_witness :
  (process_transformations (VStr "  NAME ->  FULL_NAME  ")
   = Ok {[ "NAME" := {| dest_field := "FULL_NAME"; value_maps := None |} ]}
   /\ ({[ "NAME" := {| dest_field := "FULL_NAME"; value_maps := None |} ]}
         : gmap string ColumnTransform) !! "NAME"
      = Some {| dest_field := "FULL_NAME"; value_maps := None |})
  /\ strip "NAME" = "NAME" /\ strip "FULL_NAME" = "FULL_NAME".
Proof.
  assert (process_transformations (VStr "  NAME ->  FULL_NAME  ")
          = Ok {[ "NAME" := {| dest_field := "FULL_NAME"; value_maps := None |} ]}) as H1
    by (vm_compute; reflexivity).
  assert (({[ "NAME" := {| dest_field := "FULL_NAME"; value_maps := None |} ]}
             : gmap string ColumnTransform) !! "NAME"
          = Some {| dest_field := "FULL_NAME"; value_maps := None |}) as H2
    by (vm_compute; reflexivity).
  split; [split; assumption |].
  exact (process_transformations_trimmed _ _ _ _ H1 H2).
Defined.

(** X3.  Two clauses for the same source field: the later one replaces the
    earlier one, so the mappings are those of the later clause alone. *)
Theorem add_transforms_last_wins m (src1 src2 dest1 dest2 : string)
    (H1 : contains "->" src1 = false) (H2 : contains "->" src2 = false)
    (D1 : contains "(MAP:" dest1 = false) (D2 : contains "(MAP:" dest2 = false)
    (Hsame : strip src1 = strip src2) :
  add_transforms m [src1 +:+ "->" +:+ dest1; src2 +:+ "->" +:+ dest2]
  = add_transforms m [src2 +:+ "->" +:+ dest2].
Proof.
  cbn [add_transforms]. rewrite !add_transform_plain by assumption.
  rewrite Hsame. now rewrite insert_insert_eq.
Qed.

Lemma add_transforms_last_wins_witness :
  (contains "->" "A" = false /\ contains "->" " A " = false
   /\ contains "(MAP:" "B" = false /\ contains "(MAP:" "C" = false
   /\ strip "A" = strip " A ")
  /\ add_transforms ∅ ["A" +:+ "->" +:+ "B"; " A " +:+ "->" +:+ "C"]
     = Ok {[ "A" := {| dest_field := "C"; value_maps := None |} ]}.
Proof.
  split; [repeat split; reflexivity |].
  rewrite (add_transforms_last_wins ∅ "A" " A " "B" "C");
    try reflexivity.
Defined.

Lemma dict_set_keys k v d :
  map fst (dict_set k v d)
  = if bool_decide (k ∈ map fst d) then map fst d else map fst d ++ [k].
Proof.
  induction d as [|[k' v'] d IH]; [reflexivity |].
  cbn [dict_set map fst]. destruct (String.eqb_spec k' k) as [-> | Hne].
  - cbn [map fst]. rewrite bool_decide_eq_true_2; [reflexivity | left].
  - cbn [map fst]. rewrite IH. case_bool_decide as E.
    + rewrite bool_decide_eq_true_2; [reflexivity | now right].
    + rewrite bool_decide_eq_false_2; [reflexivity |].
      intros H. apply elem_of_cons in H as [-> | H]; contradiction.
Qed.

Lemma dict_set_NoDup k v d : NoDup (map fst d) -> NoDup (map fst (dict_set k v d)).
Proof.
  intros H. rewrite dict_set_keys. case_bool_decide as E; [assumption |].
  apply NoDup_app. split; [assumption |]. split; [| apply NoDup_singleton].
  intros x Hx Hx'. apply list_elem_of_singleton in Hx'. now subst.
Qed.

Lemma dict_get_set k v d : dict_get k (dict_set k v d) = Some v.
Proof.
  induction d as [|[k' v'] d IH]; cbn [dict_set dict_get].
  - now rewrite String.eqb_refl.
  - destruct (String.eqb_spec k' k) as [-> | Hne]; cbn [dict_get].
    + now rewrite String.eqb_refl.
    + destruct (String.eqb_spec k' k); [contradiction | assumption].
Qed.

Lemma dict_get_set_ne k k' v d : k <> k' -> dict_get k' (dict_set k v d) = dict_get k' d.
Proof.
  intros Hne. induction d as [|[k1 v1] d IH]; cbn [dict_set dict_get].
  - destruct (String.eqb_spec k k'); [contradiction | reflexivity].
  - destruct (String.eqb_spec k1 k) as [-> | H1]; cbn [dict_get].
    + destruct (String.eqb_spec k k'); [contradiction | reflexivity].
    + now rewrite IH.
Qed.

Lemma add_value_map_shape d item :
  add_value_map d item = d
  \/ exists l r, add_value_map d item
                 = dict_set (strip_by is_quote (strip l)) (strip_by is_quote (strip r)) d.
Proof.
  unfold add_value_map. destruct (contains "->" item); [| now left].
  destruct (split1 "->" item) as [|l [|r [|? ?]]]; try now left.
  right. eauto.
Qed.

Lemma dict_set_Forall (P : string * string -> Prop) k v d :
  P (k, v) -> Forall P d -> Forall P (dict_set k v d).
Proof.
  intros Hkv. induction 1 as [|[k' v'] d Hx Hd IH]; cbn [dict_set].
  - now constructor.
  - destruct (String.eqb k' k); constructor; assumption.
Qed.

Lemma add_value_map_clean d item : clean_value_map d -> clean_value_map (add_value_map d item).
Proof.
  intros [Hn Hf]. destruct (add_value_map_shape d item) as [-> | (l & r & ->)];
    [now split |].
  split; [now apply dict_set_NoDup |].
  apply dict_set_Forall; [| assumption]. cbn [fst snd]. now rewrite !strip_idem.
Qed.

(** X4.  In the value map read from a MAP body no key occurs twice, so
    the CASE expression written from it has no two WHEN branches for the
    same value; no key and no mapped value begins or ends with a quote
    character; and when the body gives a key again, the new value takes the
    place of the old one. *)
Theorem parse_value_maps_clean (map_part : string) :
  NoDup (map fst (parse_value_maps map_part))
  /\ Forall (fun kv => strip_by is_quote kv.1 = kv.1 /\ strip_by is_quote kv.2 = kv.2)
            (parse_value_maps map_part)
  /\ (forall (d : list (string * string)) (k v1 v2 : string),
        contains "->" k = false ->
        dict_get (strip_by is_quote (strip k))
          (fold_left add_value_map [k +:+ "->" +:+ v1; k +:+ "->" +:+ v2] d)
        = Some (strip_by is_quote (strip v2))).
Proof.
  assert (forall (l : list string) d, clean_value_map d ->
            clean_value_map (fold_left add_value_map l d)) as H.
  { induction l as [|x l IH]; intros d Hd; [assumption |].
    cbn [fold_left]. apply IH. now apply add_value_map_clean. }
  destruct (H (split "," map_part) []) as [Hn Hf].
  { split; constructor. }
  split; [exact Hn |]. split; [exact Hf |].
  intros d k v1 v2 Hk. cbn [fold_left].
  rewrite (add_value_map_pair d k v1 Hk), (add_value_map_pair _ k v2 Hk).
  apply dict_get_set.
Qed.

End MappingFacts.

Lemma parse_value_maps_clean_witness :
  contains "->" "'A'" = false
  /\ dict_get "A" (fold_left add_value_map ["'A'" +:+ "->" +:+ "1"; "'A'" +:+ "->" +:+ "2"] [])
     = Some "2".
Proof.
  split; [reflexivity |].
  exact (proj2 (proj2 (parse_value_maps_clean "")) [] "'A'" "1" "2" eq_refl).
Defined.

(** ** The normalizer *)

Section NormalizeFacts.

Implicit Types (item : gmap string PyVal) (m : NormalizedMapping).

Lemma clean_columns_trimmed (l : list string) :
  Forall (fun c => c <> "" /\ strip c = c) (clean_columns l).
Proof.
  unfold clean_columns. apply Forall_forall. intros c Hc.
  apply list_elem_of_filter in Hc as [Hne Hc]. split; [assumption |].
  apply list_elem_of_fmap in Hc as (x & -> & _). unfold strip. apply strip_idem.
Qed.

Lemma normalize_inv item m :
  normalize item = Ok m ->
  exists tr,
    process_transformations (get item "transformations" "") = Ok tr
    /\ nm_transformations m = tr
    /\ nm_source_columns m
       = match clean_columns (raw_columns item "source_columns") with
         | [] => default_source_columns
         | l => l
         end
    /\ nm_target_columns m
       = match clean_columns (raw_columns item "target_columns") with
         | [] => derived_target_columns tr (nm_source_columns m)
         | l => l
         end.
Proof.
  unfold normalize.
  destruct (process_transformations (get item "transformations" "")) as [tr|]; [| discriminate].
  cbn [mbind result_bind mret result_ret]. intros [= <-]. exists tr.
  cbn [nm_transformations nm_source_columns nm_target_columns].
  repeat split; try reflexivity.
  - now destruct (clean_columns (raw_columns item "source_columns")).
  - now destruct (clean_columns (raw_columns item "target_columns")).
Qed.

(** X5.  The column lists of a normalized mapping are never empty, and
    every source column is a non-empty trimmed name.  A row without usable
    source columns (the field is absent, not a string, or has nothing but
    blanks between its commas) gets the four placeholder columns; target
    columns given by the row are non-empty trimmed names; a row without
    usable target columns gets one target column per source column: the
    destination field of the column's transform when it has one, the source
    column itself otherwise. *)
Theorem normalize_columns item m (H : normalize item = Ok m) :
  nm_source_columns m <> [] /\ nm_target_columns m <> []
  /\ Forall (fun c => c <> "" /\ strip c = c) (nm_source_columns m)
  /\ (clean_columns (raw_columns item "source_columns") = [] ->
      nm_source_columns m = ["ID"; "COLUMN1"; "COLUMN2"; "CREATED_DATE"])
  /\ (item !! "source_columns" = None ->
      nm_source_columns m = ["ID"; "COLUMN1"; "COLUMN2"; "CREATED_DATE"])
  /\ (clean_columns (raw_columns item "target_columns") <> [] ->
      nm_target_columns m = clean_columns (raw_columns item "target_columns")
      /\ Forall (fun c => c <> "" /\ strip c = c) (nm_target_columns m))
  /\ (clean_columns (raw_columns item "target_columns") = [] ->
      length (nm_target_columns m) = length (nm_source_columns m)
      /\ forall i src, nm_source_columns m !! i = Some src ->
           nm_target_columns m !! i
           = Some (match nm_transformations m !! src with
                   | Some t => dest_field t
                   | None => src
                   end)).
Proof.
  destruct (normalize_inv item m H) as (tr & Htr & -> & Hs & Ht).
  assert (nm_source_columns m <> []) as Hsne.
  { rewrite Hs. destruct (clean_columns (raw_columns item "source_columns")); discriminate. }
  split; [exact Hsne |]. split.
  { rewrite Ht. destruct (clean_columns (raw_columns item "target_columns")) eqn:E;
      [| discriminate].
    unfold derived_target_columns. destruct (nm_source_columns m); [contradiction | discriminate]. }
  split.
  { rewrite Hs. pose proof (clean_columns_trimmed (raw_columns item "source_columns")) as Hc.
    destruct (clean_columns (raw_columns item "source_columns")); [| exact Hc].
    repeat constructor; discriminate. }
  split; [intros E; now rewrite Hs, E |]. split.
  { intros E. rewrite Hs. unfold raw_columns, get. now rewrite E. }
  split.
  { intros E. pose proof (clean_columns_trimmed (raw_columns item "target_columns")) as Hc.
    rewrite Ht. destruct (clean_columns (raw_columns item "target_columns"));
      [contradiction | now split]. }
  intros E. rewrite Ht, E. unfold derived_target_columns. split; [apply length_map |].
  intros i src Hi. now rewrite list_lookup_fmap, Hi.
Qed.

Lemma normalize_columns_witness :
  exists m,
    normalize (row_of "S" "T" " , ," "" "ID->KEY_ID" "" "") = Ok m
    /\ nm_source_columns m = ["ID"; "COLUMN1"; "COLUMN2"; "CREATED_DATE"]
    /\ nm_target_columns m = ["KEY_ID"; "COLUMN1"; "COLUMN2"; "CREATED_DATE"].
Proof.
  destruct (normalize_total (row_of "S" "T" " , ," "" "ID->KEY_ID" "" "")) as (m & Hm & _).
  exists m. split; [exact Hm |].
  pose proof (normalize_columns _ m Hm) as (_ & _ & _ & Hs & _ & _ & Ht).
  specialize (Hs eq_refl). specialize (Ht eq_refl). destruct Ht as [Hl Ht].
  split; [exact Hs |].
  assert (nm_transformations m
          = {[ "ID" := {| dest_field := "KEY_ID"; value_maps := None |} ]}) as Htr.
  { destruct (normalize_inv _ m Hm) as (tr & Htr & -> & _).
    vm_compute in Htr. injection Htr as <-. vm_compute. reflexivity. }
  rewrite Hs in Hl, Ht. rewrite Htr in Ht.
  destruct (nm_target_columns m) as [|a [|b [|c [|d [|? ?]]]]]; try discriminate.
  pose proof (Ht 0 _ eq_refl) as H0. pose proof (Ht 1 _ eq_refl) as H1.
  pose proof (Ht 2 _ eq_refl) as H2. pose proof (Ht 3 _ eq_refl) as H3.
  vm_compute in H0, H1, H2, H3. congruence.
Defined.

(** X6.  The last entry of the [VALUES] list comes from source column
    min(len(source_columns), len(target_columns)) - 1, and it is followed by
    a comma exactly when there are fewer source columns than target columns:
    the list then ends with a dangling comma. *)
Theorem values_list_last_entry (tr : gmap string ColumnTransform) (sc tc : list string)
    (Hsc : sc <> []) (Htc : tc <> []) :
  exists src,
    sc !! (Nat.min (length sc) (length tc) - 1) = Some src
    /\ last (insert_value_lines tr sc tc)
       = Some (cat ["          "; value_text tr (strip src);
                    (if length sc <? length tc then "," else ""); nl]).
Proof.
  assert (0 < length sc) as Hs by (destruct sc; [contradiction | cbn; lia]).
  assert (0 < length tc) as Ht by (destruct tc; [contradiction | cbn; lia]).
  destruct (lookup_lt_is_Some_2 sc (Nat.min (length sc) (length tc) - 1)) as [src Hsrc]; [lia |].
  exists src. split; [exact Hsrc |].
  rewrite last_lookup, insert_value_lines_take, length_imap, length_take.
  rewrite list_lookup_imap.
  replace (Init.Nat.pred (length tc `min` length sc))
    with (Nat.min (length sc) (length tc) - 1) by lia.
  rewrite lookup_take_lt by lia. rewrite Hsrc. cbn [fmap option_fmap option_map].
  unfold value_entry, comma_unless_last. do 4 f_equal.
  destruct (Nat.ltb_spec (length sc) (length tc));
    destruct (Nat.ltb_spec (Nat.min (length sc) (length tc) - 1) (length tc - 1));
    (reflexivity || lia).
Qed.

Lemma values_list_last_entry_witness :
  (["A"] <> [] /\ ["X"; "Y"] <> [])
  /\ last (insert_value_lines ∅ ["A"] ["X"; "Y"])
     = Some (cat ["          "; "v_source_data(i).A"; ","; nl]).
Proof.
  split; [split; discriminate |].
  destruct (values_list_last_entry ∅ ["A"] ["X"; "Y"]) as (src & Hs & Hl);
    [discriminate | discriminate |].
  injection Hs as <-. exact Hl.
Defined.

End NormalizeFacts.

(** ** The files and the index *)

Section StoreFacts.

Implicit Types (item : gmap string PyVal) (script : Script) (ts : string)
  (fs : gmap string string) (st : Store).

Lemma build_script_cases item :
  (exists script, build_script item = Ok script)
  \/ (is_str (get item "target_table" "unknown_target") = false
      /\ build_script item = Raise AttributeError).
Proof.
  destruct (get item "target_table" "unknown_target") as [t|b x] eqn:E.
  - left. destruct (build_script_str item t E) as (m & _ & H). eauto.
  - right. split; [reflexivity |]. unfold build_script.
    destruct (normalize_total item) as (m & -> & _ & Ht).
    cbn [mbind result_bind]. now rewrite Ht, E.
Qed.

Lemma build_scripts_raise (rows : list (gmap string PyVal)) :
  Exists (fun item => is_str (get item "target_table" "unknown_target") = false) rows ->
  build_scripts rows = Raise AttributeError.
Proof.
  induction 1 as [item rows H | item rows _ IH]; cbn [build_scripts].
  - destruct (build_script_cases item) as [[script Hs] | [_ ->]]; [| reflexivity].
    apply build_script_tables in Hs as (_ & Ht & Hstr). rewrite <- Ht in H. congruence.
  - destruct (build_script_cases item) as [[script ->] | [_ ->]]; [| reflexivity].
    cbn [mbind result_bind]. now rewrite IH.
Qed.

(** X7.  One row whose target table is not a string (the empty cell of a
    spreadsheet, a number) makes the whole batch fail with [AttributeError]
    before anything is written: no unit of any row, no controller, no entry
    in the index. *)
Theorem batch_aborts_on_target ts (rows : list (gmap string PyVal)) st
    (H : Exists (fun item => is_str (get item "target_table" "unknown_target") = false)
                rows) :
  generate_fallback_code ts rows st = (st, Raise AttributeError).
Proof.
  unfold generate_fallback_code, all_scripts.
  now rewrite (build_scripts_raise rows H).
Qed.

Lemma batch_aborts_on_target_witness :
  Exists (fun item => is_str (get item "target_table" "unknown_target") = false)
         [row_of "A" "B" "" "" "" "" "";
          <["target_table" := VOther true "nan"]> (row_of "C" "D" "" "" "" "" "")]
  /\ generate_fallback_code "20250101_120000"
       [row_of "A" "B" "" "" "" "" "";
        <["target_table" := VOther true "nan"]> (row_of "C" "D" "" "" "" "" "")]
       {| files := ∅; index := [] |}
     = ({| files := ∅; index := [] |}, Raise AttributeError).
Proof.
  assert (Exists (fun item => is_str (get item "target_table" "unknown_target") = false)
            [row_of "A" "B" "" "" "" "" "";
             <["target_table" := VOther true "nan"]> (row_of "C" "D" "" "" "" "" "")]) as H
    by (right; left; reflexivity).
  split; [exact H |]. exact (batch_aborts_on_target _ _ _ H).
Defined.

Lemma save_scripts_files ts (scripts : list Script) fs :
  Forall (fun script => is_str (source_table script) = true
                        /\ is_str (target_table script) = true) scripts ->
  save_scripts ts scripts fs
  = (write_all ts scripts fs, Ok (map (file_info_of ts) scripts)).
Proof.
  intros H. revert fs. induction H as [|script scripts [Hs Ht] _ IH]; intros fs; [reflexivity |].
  cbn [save_scripts].
  destruct (source_table script) as [s|] eqn:Es; [| discriminate].
  destruct (target_table script) as [t|] eqn:Et; [| discriminate].
  rewrite (saved_filename_str ts script s t Es Et), IH.
  cbn [fmap result_fmap map write_all fold_left].
  unfold file_info_of. cbn [fi_filename]. rewrite ?Es, ?Et. reflexivity.
Qed.

Lemma write_all_app ts (l1 l2 : list Script) fs :
  write_all ts (l1 ++ l2) fs = write_all ts l2 (write_all ts l1 fs).
Proof. unfold write_all. apply fold_left_app. Qed.

Lemma write_all_cons ts script (scripts : list Script) fs :
  write_all ts (script :: scripts) fs
  = write_all ts scripts (<[fi_filename (file_info_of ts script) := code script]> fs).
Proof. reflexivity. Qed.

Lemma write_all_other ts (scripts : list Script) fs name :
  name ∉ map (fun script => fi_filename (file_info_of ts script)) scripts ->
  write_all ts scripts fs !! name = fs !! name.
Proof.
  revert fs. induction scripts as [|script scripts IH]; intros fs H; [reflexivity |].
  cbn [map] in H. apply not_elem_of_cons in H as [Hne H].
  rewrite write_all_cons, IH by assumption. now rewrite lookup_insert_ne.
Qed.

Lemma write_all_last ts (l1 l2 : list Script) script fs :
  fi_filename (file_info_of ts script)
    ∉ map (fun script => fi_filename (file_info_of ts script)) l2 ->
  write_all ts (l1 ++ script :: l2) fs !! fi_filename (file_info_of ts script)
  = Some (code script).
Proof.
  intros H. rewrite write_all_app, write_all_cons.
  rewrite write_all_other by assumption. apply lookup_insert_eq.
Qed.

(** X8.  After a batch whose table names are strings, the index is the
    old index followed by the entries of the new units, in order; every
    file other than those of the new units is as it was; and the file of a
    unit holds the code of that unit unless a later unit of the batch has
    the same file name, in which case it holds the code of the last such
    unit. *)
Theorem batch_store ts (rows : list (gmap string PyVal)) st
    (Hrows : Forall str_tables rows) :
  exists scripts units,
    all_scripts rows = Ok scripts
    /\ units = map (file_info_of ts) scripts
    /\ generate_fallback_code ts rows st
       = ({| files := write_all ts scripts (files st); index := index st ++ units |},
          Ok units)
    /\ (forall name, name ∉ map fi_filename units ->
          write_all ts scripts (files st) !! name = files st !! name)
    /\ (forall l1 script l2, scripts = l1 ++ script :: l2 ->
          fi_filename (file_info_of ts script) ∉ map fi_filename (map (file_info_of ts) l2) ->
          write_all ts scripts (files st) !! fi_filename (file_info_of ts script)
          = Some (code script)).
Proof.
  destruct (generate_batch ts rows st Hrows) as (scripts & main & Hb & HF & Hm & _ & Hall & _).
  assert (Forall (fun script => is_str (source_table script) = true
                                /\ is_str (target_table script) = true)
                 (scripts ++ [main])) as Hstr.
  { apply Forall_app. split.
    - clear -HF Hrows. induction HF as [|item script rows scripts Hi _ IH]; [constructor |].
      apply Forall_cons in Hrows as [[Hs Ht] Hrows]. constructor; [| now apply IH].
      apply build_script_tables in Hi as (-> & -> & _). auto.
    - subst main. repeat constructor. }
  exists (scripts ++ [main]), (map (file_info_of ts) (scripts ++ [main])).
  split; [exact Hall |]. split; [reflexivity |]. split.
  { unfold generate_fallback_code. rewrite Hall. now rewrite save_scripts_files. }
  split.
  { intros name H. apply write_all_other. now rewrite map_map in H. }
  intros l1 script l2 -> H. apply write_all_last. now rewrite map_map in H.
Qed.

Lemma batch_store_witness :
  Forall str_tables [row_of "A-B" "T" "" "" "" "" ""; row_of "A B" "T" "" "" "" "" ""]
  /\ exists units,
       (generate_fallback_code "20250101_120000"
          [row_of "A-B" "T" "" "" "" "" ""; row_of "A B" "T" "" "" "" "" ""]
          {| files := ∅; index := [] |}).2 = Ok units
       /\ index (generate_fallback_code "20250101_120000"
                   [row_of "A-B" "T" "" "" "" "" ""; row_of "A B" "T" "" "" "" "" ""]
                   {| files := ∅; index := [] |}).1 = units.
Proof.
  assert (Forall str_tables
            [row_of "A-B" "T" "" "" "" "" ""; row_of "A B" "T" "" "" "" "" ""]) as H
    by (repeat constructor).
  split; [exact H |].
  destruct (batch_store "20250101_120000" _ {| files := ∅; index := [] |} H)
    as (scripts & units & _ & _ & Hg & _).
  exists units. rewrite Hg. split; reflexivity.
Defined.

Lemma save_scripts_raise ts (l1 l2 : list Script) script fs e :
  Forall (fun script => is_str (source_table script) = true
                        /\ is_str (target_table script) = true) l1 ->
  saved_filename ts script = Raise e ->
  save_scripts ts (l1 ++ script :: l2) fs = (write_all ts l1 fs, Raise e).
Proof.
  intros H He. revert fs. induction H as [|s1 l1 [Hs Ht] _ IH]; intros fs.
  - cbn [app save_scripts]. now rewrite He.
  - cbn [app save_scripts].
    destruct (source_table s1) as [s|] eqn:Es; [| discriminate].
    destruct (target_table s1) as [t|] eqn:Et; [| discriminate].
    rewrite (saved_filename_str ts s1 s t Es Et), IH.
    cbn [fmap result_fmap write_all fold_left].
    unfold file_info_of. cbn [fi_filename]. rewrite ?Es, ?Et. reflexivity.
Qed.

Lemma build_scripts_Forall2 (rows : list (gmap string PyVal)) :
  Forall (fun item => is_str (get item "target_table" "unknown_target") = true) rows ->
  exists scripts, build_scripts rows = Ok scripts
    /\ Forall2 (fun item script => build_script item = Ok script) rows scripts.
Proof.
  induction 1 as [|item rows Ht _ (scripts & IH & HF)];
    [exists []; split; [reflexivity | constructor] |].
  destruct (get item "target_table" "unknown_target") as [t|] eqn:E; [| discriminate].
  destruct (build_script_str item t E) as (m & _ & Hb).
  eexists. cbn [build_scripts]. rewrite Hb, IH. cbn [mbind result_bind mret result_ret].
  split; [reflexivity |]. now constructor.
Qed.

(** X9.  When every target table is a string and the rows before one
    row have string table names while that row's source table is not a
    string, all the scripts are built and then the batch fails with
    [TypeError] at that row's file name: the units of the rows before it are
    already on disk, nothing is written for that row, the rows after it or
    the controller, and the index is not updated. *)
Theorem batch_fails_on_source ts (rows1 rows2 : list (gmap string PyVal)) item st
    (H1 : Forall str_tables rows1)
    (Hs : is_str (get item "source_table" "unknown_source") = false)
    (Ht : is_str (get item "target_table" "unknown_target") = true)
    (H2 : Forall (fun item => is_str (get item "target_table" "unknown_target") = true)
                 rows2) :
  exists scripts1,
    build_scripts rows1 = Ok scripts1
    /\ generate_fallback_code ts (rows1 ++ item :: rows2) st
       = ({| files := write_all ts scripts1 (files st); index := index st |},
          Raise TypeError).
Proof.
  assert (Forall (fun item => is_str (get item "target_table" "unknown_target") = true)
                 (rows1 ++ item :: rows2)) as Hall.
  { apply Forall_app. split; [| now constructor].
    eapply Forall_impl; [exact H1 |]. now intros x [_ ?]. }
  destruct (build_scripts_Forall2 _ Hall) as (scripts & Hb & HF).
  apply Forall2_app_inv_l in HF as (scripts1 & rest & HF1 & HF2 & ->).
  apply Forall2_cons_inv_l in HF2 as (script & scripts2 & Hi & HF2 & ->).
  assert (build_scripts rows1 = Ok scripts1) as Hb1.
  { clear -HF1. induction HF1 as [|x y l k Hxy _ IH]; [reflexivity |].
    cbn [build_scripts]. now rewrite Hxy, IH. }
  exists scripts1. split; [exact Hb1 |].
  assert (Forall (fun script => is_str (target_table script) = true)
                 (scripts1 ++ script :: scripts2)) as Htgt.
  { apply Forall_app. split; [| constructor].
    - clear -HF1. induction HF1 as [|x y l k Hxy _ IH]; constructor; [| exact IH].
      now apply build_script_tables in Hxy as (_ & _ & ?).
    - now apply build_script_tables in Hi as (_ & _ & ?).
    - clear -HF2. induction HF2 as [|x y l k Hxy _ IH]; constructor; [| exact IH].
      now apply build_script_tables in Hxy as (_ & _ & ?). }
  assert (Forall (fun script => is_str (source_table script) = true
                                /\ is_str (target_table script) = true) scripts1) as Hstr1.
  { clear -HF1 H1. induction HF1 as [|x y l k Hxy _ IH]; [constructor |].
    apply Forall_cons in H1 as [[Hsx Htx] H1]. constructor; [| now apply IH].
    apply build_script_tables in Hxy as (-> & -> & _). auto. }
  assert (saved_filename ts script = Raise TypeError) as Hraise.
  { apply build_script_tables in Hi as (Hsrc & _ & _). unfold saved_filename.
    rewrite Hsrc. destruct (get item "source_table" "unknown_source"); [discriminate |].
    reflexivity. }
  unfold generate_fallback_code, all_scripts. rewrite Hb.
  cbn [mbind result_bind]. unfold main_script.
  rewrite call_blocks_str by exact Htgt. cbn [mbind result_bind mret result_ret].
  rewrite <- List.app_assoc. cbn [app].
  now rewrite (save_scripts_raise ts scripts1 _ script (files st) TypeError Hstr1 Hraise).
Qed.

Lemma batch_fails_on_source_witness :
  (Forall str_tables [row_of "A" "B" "" "" "" "" ""]
   /\ is_str (get (<["source_table" := VOther true "nan"]> (row_of "C" "D" "" "" "" "" ""))
                "source_table" "unknown_source") = false
   /\ is_str (get (<["source_table" := VOther true "nan"]> (row_of "C" "D" "" "" "" "" ""))
                "target_table" "unknown_target") = true)
  /\ (generate_fallback_code "20250101_120000"
        ([row_of "A" "B" "" "" "" "" ""]
         ++ <["source_table" := VOther true "nan"]> (row_of "C" "D" "" "" "" "" "") :: [])
        {| files := ∅; index := [] |}).2 = Raise TypeError.
Proof.
  assert (Forall str_tables [row_of "A" "B" "" "" "" "" ""]) as H1 by (repeat constructor).
  assert (is_str (get (<["source_table" := VOther true "nan"]>
                         (row_of "C" "D" "" "" "" "" ""))
                      "source_table" "unknown_source") = false) as Hs by reflexivity.
  assert (is_str (get (<["source_table" := VOther true "nan"]>
                         (row_of "C" "D" "" "" "" "" ""))
                      "target_table" "unknown_target") = true) as Ht by reflexivity.
  split; [split; [exact H1 | split; assumption] |].
  destruct (batch_fails_on_source "20250101_120000" [row_of "A" "B" "" "" "" "" ""] []
              (<["source_table" := VOther true "nan"]> (row_of "C" "D" "" "" "" "" ""))
              {| files := ∅; index := [] |} H1 Hs Ht (List.Forall_nil _))
    as (scripts1 & _ & Hg).
  now rewrite Hg.
Defined.

End StoreFacts.

(** ** File names: upload and listing *)

Section FileNameFacts.

Implicit Types (s stem ext : string) (c : ascii).

Lemma rcut_none c s : contains (String c "") s = false -> rcut c s = None.
Proof.
  induction s as [|a s IH]; intros H; [reflexivity |].
  rewrite contains_char_cons in H. apply orb_false_iff in H as [H1 H2].
  cbn [rcut]. rewrite IH by assumption. now rewrite eqb_sym, H1.
Qed.

Lemma rcut_last c stem ext :
  contains (String c "") ext = false ->
  rcut c (stem +:+ String c ext) = Some (stem, ext).
Proof.
  intros H. induction stem as [|a stem IH].
  - cbn [String.append rcut]. now rewrite (rcut_none _ _ H), Ascii.eqb_refl.
  - rewrite app_cons. cbn [rcut]. now rewrite IH.
Qed.

Lemma rcut_of_contains c s :
  contains (String c "") s = true ->
  exists stem ext, s = stem +:+ String c ext /\ contains (String c "") ext = false.
Proof.
  induction s as [|a s IH]; intros H; [discriminate |].
  destruct (contains (String c "") s) eqn:E.
  - destruct (IH eq_refl) as (stem & ext & -> & He). now exists (String a stem), ext.
  - rewrite contains_char_cons, E, orb_false_r in H. apply Ascii.eqb_eq in H. subst a.
    now exists "", s.
Qed.

Lemma allowed_extension x :
  bool_decide (x ∈ ALLOWED_EXTENSIONS)
  = String.eqb x "csv" || String.eqb x "json" || String.eqb x "xlsx" || String.eqb x "xls".
Proof.
  unfold ALLOWED_EXTENSIONS.
  destruct (String.eqb_spec x "csv") as [-> | H1]; [reflexivity |].
  destruct (String.eqb_spec x "json") as [-> | H2]; [reflexivity |].
  destruct (String.eqb_spec x "xlsx") as [-> | H3]; [reflexivity |].
  destruct (String.eqb_spec x "xls") as [-> | H4]; [reflexivity |].
  apply bool_decide_eq_false_2.
  rewrite !elem_of_union, !elem_of_singleton. intuition congruence.
Qed.

(** X10.  A file name is accepted exactly by the text after its last dot,
    compared without regard to case with csv, json, xlsx and xls; a name
    without a dot is refused, and nothing is asked of the text before the
    dot, which may be empty. *)
Theorem allowed_file_extension :
  (forall stem ext,
      contains "." ext = false ->
      allowed_file (stem +:+ "." +:+ ext)
      = (String.eqb (lower ext) "csv" || String.eqb (lower ext) "json"
         || String.eqb (lower ext) "xlsx" || String.eqb (lower ext) "xls"))
  /\ (forall filename, contains "." filename = false -> allowed_file filename = false)
  /\ (forall filename,
        allowed_file filename = true ->
        exists stem ext, filename = stem +:+ "." +:+ ext /\ contains "." ext = false
                         /\ lower ext ∈ ALLOWED_EXTENSIONS).
Proof.
  split; [| split].
  - intros stem ext H. unfold allowed_file, rsplit1.
    change (stem +:+ "." +:+ ext) with (stem +:+ String "." ext).
    rewrite rcut_last by assumption.
    rewrite (contains_intro "." stem ext : contains "." (stem +:+ String "." ext) = true).
    cbn [andb]. apply allowed_extension.
  - intros filename H. unfold allowed_file. now rewrite H.
  - intros filename H. unfold allowed_file in H.
    apply andb_true_iff in H as [Hd H].
    destruct (rcut_of_contains _ _ Hd) as (stem & ext & -> & He).
    exists stem, ext. split; [reflexivity |]. split; [exact He |].
    unfold rsplit1 in H. rewrite rcut_last in H by assumption.
    now apply bool_decide_eq_true in H.
Qed.

Lemma allowed_file_extension_witness :
  contains "." "CSV" = false
  /\ allowed_file ("archive.tar" +:+ "." +:+ "CSV") = true
  /\ allowed_file "mapping" = false.
Proof.
  split; [reflexivity |]. split.
  - rewrite (proj1 allowed_file_extension "archive.tar" "CSV" eq_refl). reflexivity.
  - apply (proj1 (proj2 allowed_file_extension)). reflexivity.
Defined.

(** X11.  [parse_mapping_file] calls one of its three readers exactly
    for the paths that [allowed_file] accepts: for an accepted name the
    extension exists and is known, so neither the [IndexError] of a path
    without a dot nor the branch for an unknown extension is reached. *)
Theorem mapping_reader_allowed (file_path : string) :
  allowed_file file_path
  = match mapping_reader file_path with
    | ReadCsv | ReadJson | ReadExcel => true
    | Unsupported | NoExtension => false
    end.
Proof.
  unfold allowed_file, mapping_reader, rsplit1.
  destruct (contains "." file_path) eqn:Hd.
  - destruct (rcut_of_contains _ _ Hd) as (stem & ext & -> & He).
    rewrite rcut_last by assumption. cbn [andb]. rewrite allowed_extension.
    destruct (String.eqb (lower ext) "csv"); [reflexivity |].
    destruct (String.eqb (lower ext) "json"); [reflexivity |].
    destruct (String.eqb (lower ext) "xlsx"); [reflexivity |].
    destruct (String.eqb (lower ext) "xls"); reflexivity.
  - now rewrite (rcut_none _ _ Hd).
Qed.

Lemma startswith_within p a b :
  startswith (a +:+ b) p = true -> String.length p <= String.length a ->
  startswith a p = true.
Proof.
  revert a. induction p as [|x p IH]; intros a H Hl; [reflexivity |].
  destruct a as [|y a]; [cbn in Hl; lia |].
  rewrite app_cons in H. cbn [startswith] in *.
  apply andb_true_iff in H as [-> H]. cbn [andb]. apply IH; [assumption |].
  cbn [String.length] in Hl. lia.
Qed.

Lemma length_app a b : String.length (a +:+ b) = String.length a + String.length b.
Proof. induction a as [|x a IH]; [reflexivity |]. rewrite app_cons. cbn. now rewrite IH. Qed.

(** The first occurrence of a separator that may overlap itself: it is
    where it was put when it does not occur in the text before it extended
    by the separator without its last character. *)
Lemma cut_app_overlap q z x y :
  contains (q +:+ String z "") (x +:+ q) = false ->
  cut (q +:+ String z "") (x +:+ (q +:+ String z "") +:+ y) = Some (x, y).
Proof.
  induction x as [|c x IH]; intros H.
  - change ("" +:+ (q +:+ String z "") +:+ y) with ((q +:+ String z "") +:+ y).
    rewrite cut_here by apply startswith_app. now rewrite drop_app.
  - rewrite app_cons in *.
    assert (cut (q +:+ String z "") (String c (x +:+ (q +:+ String z "") +:+ y))
            = match cut (q +:+ String z "") (x +:+ (q +:+ String z "") +:+ y) with
              | Some (l, r) => Some (String c l, r)
              | None => None
              end) as ->.
    { cbn [cut].
      destruct (startswith (String c (x +:+ (q +:+ String z "") +:+ y))
                  (q +:+ String z "")) eqn:E; [| reflexivity].
      exfalso. cbn [contains] in H. apply orb_false_iff in H as [H _].
      assert (startswith (String c (x +:+ q)) (q +:+ String z "") = true) as H';
        [| congruence].
      apply (startswith_within _ _ (String z y)).
      + rewrite <- E. f_equal. rewrite app_cons. f_equal. now rewrite !app_assoc.
      + cbn [String.length]. rewrite !length_app. cbn [String.length]. lia. }
    rewrite IH; [reflexivity |]. eapply contains_tail, H.
Qed.

Lemma split_str_fuel_none n sep s :
  contains sep s = false -> split_str_fuel n sep s = [s].
Proof. intros H. destruct n; [reflexivity |]. cbn. now rewrite (cut_none _ _ H). Qed.

Lemma split_str_once q z x y :
  contains (q +:+ String z "") (x +:+ q) = false ->
  contains (q +:+ String z "") y = false ->
  split_str (q +:+ String z "") (x +:+ (q +:+ String z "") +:+ y) = [x; y].
Proof.
  intros Hx Hy. unfold split_str.
  destruct (String.length (x +:+ (q +:+ String z "") +:+ y)) as [|n] eqn:E.
  - rewrite !length_app in E. cbn [String.length] in E. lia.
  - cbn [split_str_fuel]. rewrite cut_app_overlap by assumption.
    now rewrite split_str_fuel_none.
Qed.

Lemma split_str_to x y :
  contains "_to_" (x +:+ "_to") = false -> contains "_to_" y = false ->
  split_str "_to_" (x +:+ "_to_" +:+ y) = [x; y].
Proof. exact (split_str_once "_to" "_" x y). Qed.

(** X12.  The table names the listing reads back from a generated file
    name are not the names that went in: the timestamp has an underscore of
    its own, so the source shown is the time of day, an underscore and the
    sanitized source name; the target shown is the sanitized target name.
    This holds when [_to_] occurs in the file name only where the generator
    put it; the controller's file is shown as ALL, ALL. *)
Theorem listed_tables_of_unit (date time s t : string)
    (Hdate : contains "_" date = false)
    (Hsrc : contains "_to_" (cat [date; "_"; time; "_"; s; "_to"]) = false)
    (Htgt : contains "_to_" (t +:+ ".sql") = false)
    (Hdot : contains "." t = false) :
  listed_tables (cat [date +:+ "_" +:+ time; "_"; s; "_to_"; t; ".sql"])
  = (time +:+ "_" +:+ s, t)
  /\ (contains "_to_" (cat [date +:+ "_" +:+ time; "_migrate_all.sql"]) = false ->
      listed_tables (cat [date +:+ "_" +:+ time; "_migrate_all.sql"]) = ("ALL", "ALL")).
Proof.
  split.
  - assert (cat [date +:+ "_" +:+ time; "_"; s; "_to_"; t; ".sql"]
            = (date +:+ "_" +:+ time +:+ "_" +:+ s) +:+ "_to_" +:+ (t +:+ ".sql")) as ->.
    { unfold cat. cbn [fold_right]. rewrite !app_assoc. reflexivity. }
    assert (contains "_to_" ((date +:+ "_" +:+ time +:+ "_" +:+ s) +:+ "_to") = false) as Hx.
    { etransitivity; [| exact Hsrc]. unfold cat. cbn [fold_right].
      rewrite !app_assoc. reflexivity. }
    unfold listed_tables. rewrite contains_intro.
    rewrite split_str_to by assumption.
    change (date +:+ "_" +:+ time +:+ "_" +:+ s)
      with (date +:+ String "_" "" +:+ (time +:+ "_" +:+ s)).
    rewrite (split1_app "_" "" date) by (reflexivity || assumption).
    change (t +:+ ".sql") with (t +:+ String "." "sql").
    rewrite split_app_sep, (split_no_sep _ _ Hdot). reflexivity.
  - intros H. unfold listed_tables. rewrite H.
    assert (cat [date +:+ "_" +:+ time; "_migrate_all.sql"]
            = (date +:+ "_" +:+ time +:+ "_") +:+ "migrate_all" +:+ ".sql") as ->.
    { unfold cat. cbn [fold_right]. rewrite !app_assoc. reflexivity. }
    now rewrite contains_intro.
Qed.

Lemma listed_tables_of_unit_witness :
  (contains "_" "20250101" = false
   /\ contains "_to_" (cat ["20250101"; "_"; "120000"; "_"; "ORDERS_OLD"; "_to"]) = false
   /\ contains "_to_" ("ORDERS_NEW" +:+ ".sql") = false
   /\ contains "." "ORDERS_NEW" = false)
  /\ listed_tables "20250101_120000_ORDERS_OLD_to_ORDERS_NEW.sql"
     = ("120000_ORDERS_OLD", "ORDERS_NEW").
Proof.
  split; [repeat split; reflexivity |].
  exact (proj1 (listed_tables_of_unit "20250101" "120000" "ORDERS_OLD" "ORDERS_NEW"
                  eq_refl eq_refl eq_refl eq_refl)).
Defined.

End FileNameFacts.

(** X13.  A row that names no usable target column gives an insert
    statement with as many entries in the column list as in the [VALUES]
    list, one for each source column. *)
Theorem derived_targets_balanced (item : gmap string PyVal) (m : NormalizedMapping)
    (H : normalize item = Ok m)
    (Hno : clean_columns (raw_columns item "target_columns") = []) :
  length (insert_column_lines (nm_target_columns m)) = length (nm_source_columns m)
  /\ length (insert_value_lines (nm_transformations m) (nm_source_columns m)
               (nm_target_columns m)) = length (nm_source_columns m).
Proof.
  destruct (normalize_inv item m H) as (tr & _ & _ & _ & Ht).
  rewrite Hno in Ht.
  assert (length (nm_target_columns m) = length (nm_source_columns m)) as Hl
    by (rewrite Ht; apply length_map).
  split.
  - unfold insert_column_lines. now rewrite length_imap.
  - rewrite insert_value_lines_take, length_imap, length_take. lia.
Qed.

Lemma derived_targets_balanced_witness :
  exists m,
    (normalize (row_of "S" "T" "A,B,C" " , " "A->X" "" "") = Ok m
     /\ clean_columns (raw_columns (row_of "S" "T" "A,B,C" " , " "A->X" "" "")
                         "target_columns") = [])
    /\ length (insert_column_lines (nm_target_columns m)) = length (nm_source_columns m).
Proof.
  destruct (normalize_total (row_of "S" "T" "A,B,C" " , " "A->X" "" "")) as (m & Hm & _).
  exists m. split; [split; [exact Hm | reflexivity] |].
  exact (proj1 (derived_targets_balanced _ m Hm eq_refl)).
Defined.
